(** * Copilot-Drug-AI: the drug-design demo, basic and enhanced variants

    A shallow embedding of the two scripts of the repository:
    - the basic variant (the script whose header reads "This file mocks a
      Drug Creation & Testing AI"), module [Basic];
    - the enhanced variant ([script.js], "Enhanced Fake Drug AI"), module
      [Enhanced].

    Modelling conventions.
    - A JavaScript string is the list of its UTF-16 code units, which is what
      [length], [split('')], [charCodeAt] and [slice] observe.
    - A JavaScript number is modelled by the rational it denotes and
      arithmetic is exact; a value of [Math.random()] is a dyadic rational of
      [[0,1)], as every double of that interval is.  A product of doubles
      is rounded by the machine where the exact product does not fit 53
      bits, so the properties state of a product only what rounding keeps
      (its range, the shape of its rendering), or its exact value for draws
      short enough for the product to be exact.
    - [Math.random] is an oracle: an infinite sequence of draws and a cursor.
    - Arrays that are passed around live in a store and are named by
      locations, so that copying and in-place update are told apart.
    - A call either completes normally or throws; the effects made before a
      throw stay in the world.
    - The enhanced variant's [async] handler is run to completion: the page
      has one thread and the handler one suspension point. *)

From Stdlib Require Import ZArith NArith QArith Qround Lia Lqa String Ascii.
From stdpp Require Import gmap list.

Local Close Scope Q_scope.
Local Open Scope nat_scope.

(** ** JavaScript strings and numbers *)

Module JS.

Abbreviation js_string := (list N).

(** An ASCII literal of the source as a list of code units. *)
Definition lit (s : string) : js_string :=
  map N_of_ascii (list_ascii_of_string s).

(** [WhiteSpace] and [LineTerminator] code units of ECMAScript, the ones
    [String.prototype.trim] strips. *)
Definition is_white_space (c : N) : bool :=
  ((9 <=? c) && (c <=? 13) || (c =? 32) || (c =? 160) || (c =? 5760)
   || (8192 <=? c) && (c <=? 8202) || (c =? 8232) || (c =? 8233)
   || (c =? 8239) || (c =? 8287) || (c =? 12288) || (c =? 65279))%N.

Fixpoint trim_start (s : js_string) : js_string :=
  match s with
  | c :: s' => if is_white_space c then trim_start s' else s
  | [] => []
  end.

(** [s.trim()] *)
Definition trim (s : js_string) : js_string :=
  rev (trim_start (rev (trim_start s))).

(** [!s] for a string: only the empty string is falsy. *)
Definition falsy (s : js_string) : bool :=
  match s with [] => true | _ => false end.

(** [s.split('')]: one one-unit string per code unit. *)
Definition split_units (s : js_string) : list js_string :=
  map (fun c => [c]) s.

(** [a.join(sep)] *)
Fixpoint join (sep : js_string) (a : list js_string) : js_string :=
  match a with
  | [] => []
  | [x] => x
  | x :: a' => x ++ sep ++ join sep a'
  end.

(** [s.slice(b, e)] and [a.slice(b, e)] for non-negative integer bounds. *)
Definition slice {A} (s : list A) (b e : nat) : list A :=
  let from := Nat.min b (length s) in
  let to := Nat.min e (length s) in
  take (to - from) (drop from s).

(** [s.substr(b, n)] for non-negative integer arguments. *)
Definition substr {A} (s : list A) (b n : nat) : list A :=
  let from := Nat.min b (length s) in
  take (Nat.min n (length s - from)) (drop from s).

(** [s.toUpperCase()] on ASCII letters; other code units below 128 are
    their own upper case.  The scripts apply it to base-36 digits only
    (see [name_token_digits]). *)
Definition upper_unit (c : N) : N :=
  if ((97 <=? c) && (c <=? 122))%N then (c - 32)%N else c.

Definition toUpperCase (s : js_string) : js_string := map upper_unit s.

(** [s.charCodeAt(i)]; [None] stands for [NaN] (index out of range). *)
Definition charCodeAt (s : js_string) (i : nat) : option N := s !! i.

(** *** Draws of [Math.random()] *)

Definition pow2 (k : nat) : positive := Pos.shiftl_nat 1 k.

(** A draw: [mant / 2 ^ expo] with [mant < 2 ^ expo].  Every double of
    [[0,1)] has this form; the type does not bound [expo], so a property of
    all draws holds of every double, and a property that chooses draws says
    of which width they are. *)
Record U01 := mkU01 {
  mant : N;
  expo : nat;
  mant_lt : (mant <? Npos (pow2 expo))%N = true
}.

Definition U01_val (r : U01) : Q := Z.of_N (mant r) # pow2 (expo r).

(** *** [Number.prototype.toString(36)] on a draw

    The language leaves the digits of a rendering in a radix other than 10
    to the engine.  The model prints the exact expansion: the base-36
    expansion of a dyadic rational is finite (36 = 4 * 9) and the digits
    are produced until the remainder is zero.  Zero prints as ["0"], with no
    fractional point.  An engine that stops as soon as the digits identify
    the double prints a prefix of this expansion, rounded in its last
    digit, and the same string when the remainder reaches zero first, as
    for 0.5, which prints as ["0.i"], and for every multiple of [2 ^ -10]
    (at most five digits, [base36_digits_short]).  For the other draws the
    properties rely on the shape of the rendering only: ["0."] followed by
    base-36 digits ([name_token_any_rendering]). *)

Definition digit_char (d : N) : N :=
  if (d <? 10)%N then (48 + d)%N else (87 + d)%N.

Fixpoint frac_digits (fuel : nat) (num den : N) : list N :=
  match fuel with
  | O => []
  | S fuel' =>
      if (num =? 0)%N then []
      else (num * 36 / den)%N :: frac_digits fuel' ((num * 36) mod den)%N den
  end.

Definition toString36 (r : U01) : js_string :=
  if (mant r =? 0)%N then lit "0"
  else lit "0." ++ map digit_char (frac_digits (expo r) (mant r) (Npos (pow2 (expo r)))).

(** *** [Number.prototype.toFixed] *)

Fixpoint decimal_fuel (fuel : nat) (n : N) : js_string :=
  match fuel with
  | O => []
  | S fuel' =>
      if (n <? 10)%N then [(48 + n)%N]
      else decimal_fuel fuel' (n / 10)%N ++ [(48 + n mod 10)%N]
  end.

(** The decimal digits of [n]; a number has no more digits than bits. *)
Definition decimal (n : N) : js_string :=
  decimal_fuel (S (N.to_nat (N.log2 n))) n.

(** The integer [n] for which [n / 10^f - x] is closest to zero, the larger
    one on a tie ([x >= 0]). *)
Definition nearest_scaled (x : Q) (f : nat) : N :=
  Z.to_N (Qfloor (x * inject_Z (10 ^ Z.of_nat f) + (1 # 2))%Q).

(** The digits of [n] with a point before the last [f] of them. *)
Definition fixed_digits (n : N) (f : nat) : js_string :=
  let m := decimal n in
  match f with
  | O => m
  | _ =>
      let m := if decide (length m <= f) then replicate (S f - length m) 48%N ++ m else m in
      let k := length m in
      take (k - f) m ++ lit "." ++ drop (k - f) m
  end.

(** [x.toFixed(f)] for a finite [x] with [|x| < 10^21]. *)
Definition toFixed (x : Q) (f : nat) : js_string :=
  if Qle_bool 0 x then fixed_digits (nearest_scaled x f) f
  else lit "-" ++ fixed_digits (nearest_scaled (- x)%Q f) f.

(** [x | 0] on an integer-valued [x]: [ToInt32]. *)
Definition to_int32 (z : Z) : Z :=
  ((z + 2 ^ 31) mod 2 ^ 32 - 2 ^ 31)%Z.

(** Truncation of a number towards zero. *)
Definition Qtrunc (x : Q) : Z :=
  if Qle_bool 0 x then Qfloor x else Qceiling x.

(** *** Completions and values *)

Inductive js_error := TypeError.

Inductive completion (A : Type) :=
  | Normal (a : A)
  | Throw (e : js_error).
Arguments Normal {A} a.
Arguments Throw {A} e.

End JS.
Import JS.

(** ** The world: store of arrays, random oracle, calls to collaborators *)

Abbreviation loc := positive.

(** A value that a call may return where the scripts go on to use it as an
    array. *)
Inductive value :=
  | VUndefined
  | VArray (a : loc).

(** Calls into the page's collaborators, in the order they were made. *)
Inductive event :=
  | EvAlert (msg : js_string)
  | EvTrain
  | EvPredict (input : list Q).

Record World := mkWorld {
  heap : gmap loc (list js_string);
  draws : nat -> U01;
  cursor : nat;
  log : list event
}.

(** Computations over a state [S] that complete normally or throw. *)
Definition ST (S A : Type) : Type := S -> completion A * S.

#[global] Instance ST_ret S : MRet (ST S) := fun A a s => (Normal a, s).

#[global] Instance ST_bind S : MBind (ST S) := fun A B f c s =>
  match c s with
  | (Normal a, s') => f a s'
  | (Throw e, s') => (Throw e, s')
  end.

Definition throw {S A} (e : js_error) : ST S A := fun s => (Throw e, s).

Abbreviation M := (ST World).

(** [Math.random()] *)
Definition Math_random : M U01 := fun w =>
  (Normal (draws w (cursor w)),
   mkWorld (heap w) (draws w) (S (cursor w)) (log w)).

Definition emit (e : event) : M unit := fun w =>
  (Normal tt, mkWorld (heap w) (draws w) (cursor w) (log w ++ [e])).

(** An array literal, or any other fresh array. *)
Definition alloc (l : list js_string) : M loc := fun w =>
  let a := fresh (dom (heap w)) in
  (Normal a, mkWorld (<[a := l]> (heap w)) (draws w) (cursor w) (log w)).

(** The elements of the array at [a]; the scripts only hold locations of
    arrays they were given or made, a dangling one reads as empty. *)
Definition contents (a : loc) : M (list js_string) := fun w =>
  (Normal (default [] (heap w !! a)), w).

Definition store (a : loc) (l : list js_string) : M unit := fun w =>
  (Normal tt, mkWorld (<[a := l]> (heap w)) (draws w) (cursor w) (log w)).

(** [a.length] *)
Definition Array_length (a : loc) : M nat :=
  l ← contents a; mret (length l).

(** [a.slice(b, e)]: a new array. *)
Definition Array_slice (a : loc) (b e : nat) : M loc :=
  l ← contents a; alloc (slice l b e).

(** [a.slice()]: a copy. *)
Definition Array_copy (a : loc) : M loc :=
  l ← contents a; alloc l.

(** [a.join(sep)] *)
Definition Array_join (a : loc) (sep : js_string) : M js_string :=
  l ← contents a; mret (join sep l).

(** [v.slice(b, e)] on a value: reading a property of [undefined] throws a
    [TypeError]. *)
Definition value_slice (v : value) (b e : nat) : M loc :=
  match v with
  | VArray a => Array_slice a b e
  | VUndefined => throw TypeError
  end.

(** Exchange of the elements at [i] and [j], both in range:
    [[a[i], a[j]] = [a[j], a[i]]], or through a temporary.  [None] when an
    index is out of range (where JavaScript would read [undefined]); the
    shuffles below never get there, see [shuffle_loop_spec] and
    [tf_shuffle_loop_spec]. *)
Definition swap {A} (l : list A) (i j : nat) : option (list A) :=
  match l !! i, l !! j with
  | Some x, Some y => Some (<[j := x]> (<[i := y]> l))
  | _, _ => None
  end.

(** [a[i]] and [a[j]] exchanged in the array at [a]. *)
Definition swap_at (a : loc) (i j : nat) : M unit :=
  l ← contents a;
  match swap l i j with
  | Some l' => store a l'
  | None => mret tt
  end.

(** [Math.floor(Math.random() * n)] *)
Definition random_floor (n : nat) : M Z :=
  r ← Math_random; mret (Qfloor (U01_val r * inject_Z (Z.of_nat n))).

(** [(Math.random() * n) | 0] *)
Definition random_int32 (n : nat) : M Z :=
  r ← Math_random; mret (to_int32 (Qtrunc (U01_val r * inject_Z (Z.of_nat n)))).

(** *** Handlers: the page on top of the world *)

(** A world computation run inside a handler. *)
Definition lift {P A} (c : M A) : ST (P * World) A := fun s =>
  match c (snd s) with
  | (r, w') => (r, (fst s, w'))
  end.

Definition get_page {P} : ST (P * World) P := fun s => (Normal (fst s), s).

Definition set_page {P} (f : P -> P) : ST (P * World) unit := fun s =>
  (Normal tt, (f (fst s), snd s)).

(** ** The basic variant *)

Module Basic.

Record Drug := mkDrug {
  name : js_string;
  structure : js_string;
  description : js_string
}.

Record TestResult := mkTestResult {
  efficacy : js_string;
  toxicity : js_string;
  sideEffects : loc
}.

(** The session variable [currentDrug] and the parts of the page the
    handlers read and write. *)
Record Page := mkPage {
  currentDrug : option Drug;
  moleculeInput_value : js_string;
  resultOutput_textContent : js_string;
  testBtn_disabled : bool
}.

Definition set_currentDrug (d : option Drug) (p : Page) : Page :=
  mkPage d (moleculeInput_value p) (resultOutput_textContent p) (testBtn_disabled p).

Definition set_textContent (t : js_string) (p : Page) : Page :=
  mkPage (currentDrug p) (moleculeInput_value p) t (testBtn_disabled p).

Definition append_textContent (t : js_string) (p : Page) : Page :=
  set_textContent (resultOutput_textContent p ++ t) p.

Definition set_testBtn_disabled (b : bool) (p : Page) : Page :=
  mkPage (currentDrug p) (moleculeInput_value p) (resultOutput_textContent p) b.

Definition suffix : js_string := lit "-mol".

(** [simulateDrugCreation(input)] *)
Definition simulateDrugCreation (input : js_string) : M Drug :=
  r ← Math_random;
  let name := lit "FX-" ++ toUpperCase (substr (toString36 r) 2 5) in
  let structure := join [] (rev (split_units input)) ++ suffix in
  let description :=
    lit "Fictional compound inspired by " ++ [34%N] ++ input ++ [34%N]
    ++ lit ", for demo use only." in
  mret (mkDrug name structure description).

(** The loop of [shuffleArray]: [for (i = ...; i > 0; i--)]. *)
Fixpoint shuffle_loop (array : loc) (i : nat) : M unit :=
  match i with
  | O => mret tt
  | S i' =>
      j ← random_floor (i + 1);
      swap_at array i (Z.to_nat j);;
      shuffle_loop array i'
  end.

(** [shuffleArray(arr)] *)
Definition shuffleArray (arr : loc) : M loc :=
  array ← Array_copy arr;
  n ← Array_length array;
  shuffle_loop array (n - 1);;
  mret array.

(** The spec's [shuffleAndTake(items, n)]: [shuffleArray(items).slice(0, n)]. *)
Definition shuffleAndTake (items : loc) (n : nat) : M loc :=
  shuffled ← shuffleArray items;
  Array_slice shuffled 0 n.

Definition possibleEffects : list js_string :=
  [lit "Nausea"; lit "Headache"; lit "Dizziness"; lit "Fatigue"; lit "Dry mouth"].

(** [simulateDrugTesting(drug)].  [Math.random() * 100] is the exact
    product: the machine's product is the same for a draw that is a
    multiple of [2 ^ -48], and within the same range, [[0,100]], for every
    draw. *)
Definition simulateDrugTesting (drug : Drug) : M TestResult :=
  r1 ← Math_random;
  let efficacy := toFixed (U01_val r1 * 100)%Q 1 in
  r2 ← Math_random;
  let toxicity := toFixed (U01_val r2 * 100)%Q 1 in
  effects ← alloc possibleEffects;
  sideEffects ← shuffleAndTake effects 2;
  mret (mkTestResult efficacy toxicity sideEffects).

Definition warning : js_string :=
  [9888%N; 65039%N] ++ lit " Please enter a molecule design first.".

Definition nl : js_string := [10%N].

(** The click handler of [createBtn]. *)
Definition createBtn_click : ST (Page * World) unit :=
  p ← get_page;
  let input := trim (moleculeInput_value p) in
  if falsy input then
    set_page (set_textContent warning)
  else
    drug ← lift (simulateDrugCreation input);
    set_page (set_currentDrug (Some drug));;
    set_page (set_textContent
      ([55358%N; 56810%N] ++ lit " Generated Drug:" ++ nl
       ++ lit "Name: " ++ name drug ++ nl
       ++ lit "Structure: " ++ structure drug ++ nl
       ++ lit "Description: " ++ description drug));;
    set_page (set_testBtn_disabled false).

(** The click handler of [testBtn]. *)
Definition testBtn_click : ST (Page * World) unit :=
  p ← get_page;
  match currentDrug p with
  | None => mret tt
  | Some drug =>
      set_page (append_textContent
        (nl ++ nl ++ [55357%N; 56589%N] ++ lit " Testing drug" ++ [8230%N] ++ nl));;
      testResults ← lift (simulateDrugTesting drug);
      effects ← lift (Array_join (sideEffects testResults) (lit ", "));
      set_page (append_textContent
        (lit "Predicted Efficacy: " ++ efficacy testResults ++ lit "%" ++ nl
         ++ lit "Predicted Toxicity: " ++ toxicity testResults ++ lit "%" ++ nl
         ++ lit "Predicted Side Effects: " ++ effects))
  end.

End Basic.

(** ** TensorFlow.js utilities used by the enhanced variant *)

(** The loop of [tf.util.shuffle]: [while (counter > 0)], a random index
    below [counter], [counter--], exchange. *)
Fixpoint tf_shuffle_loop (array : loc) (counter : nat) : M unit :=
  match counter with
  | O => mret tt
  | S counter' =>
      index ← random_int32 counter;
      swap_at array counter' (Z.to_nat index);;
      tf_shuffle_loop array counter'
  end.

(** [tf.util.shuffle(array)].  The library documents it as "Shuffles the
    array in-place using Fisher-Yates algorithm" with return type [void]:
    the argument itself is permuted and the call evaluates to
    [undefined]. *)
Definition tf_util_shuffle (array : loc) : M value :=
  n ← Array_length array;
  tf_shuffle_loop array n;;
  mret VUndefined.

(** ** The enhanced variant *)

Module Enhanced.

Record Drug := mkDrug {
  name : js_string;
  structure : js_string;
  molWeight : js_string;
  logP : js_string;
  sideEffects : loc
}.

Definition suffix : js_string := lit "-MOL".

(** [pickRandom(arr, n)]: [tf.util.shuffle(arr).slice(0, n)]. *)
Definition pickRandom (arr : loc) (n : nat) : M loc :=
  shuffled ← tf_util_shuffle arr;
  value_slice shuffled 0 n.

Definition vocabulary : list js_string :=
  [lit "Nausea"; lit "Headache"; lit "Dizziness"; lit "Fatigue"; lit "Dry mouth";
   lit "Insomnia"].

(** [simulateDrugCreation(input)] *)
Definition simulateDrugCreation (input : js_string) : M Drug :=
  r ← Math_random;
  let name := lit "FX-" ++ toUpperCase (slice (toString36 r) 2 7) in
  let structure := join [] (rev (split_units input)) ++ suffix in
  r ← Math_random;
  let molWeight := toFixed (100 + U01_val r * 500)%Q 1 in
  r ← Math_random;
  let logP := toFixed (U01_val r * 6 - 1)%Q 2 in
  arr ← alloc vocabulary;
  sideEffects ← pickRandom arr 3;
  mret (mkDrug name structure molWeight logP sideEffects).

Definition maxLen : nat := 10.

(** One round of the loop of [encodeMolecule]: [codes[i] = str.charCodeAt(i) / 255].
    The loop keeps [i] below [str.length], where [charCodeAt] is a number. *)
Definition encode_step (str : js_string) (codes : list Q) (i : nat) : list Q :=
  match charCodeAt str i with
  | Some c => <[i := (Z.of_N c # 255)%Q]> codes
  | None => codes
  end.

(** [encodeMolecule(str)]: the row of the [1 x 10] tensor it returns. *)
Definition encodeMolecule (str : js_string) : list Q :=
  fold_left (encode_step str) (seq 0 (Nat.min (length str) maxLen))
    (replicate maxLen 0%Q).

(** [effects.map(() => Math.random() * 100)] on [n] elements. *)
Fixpoint random_scores (n : nat) : M (list Q) :=
  match n with
  | O => mret []
  | S n' =>
      r ← Math_random;
      rest ← random_scores n';
      mret ((U01_val r * 100)%Q :: rest)
  end.

Section WithTF.

(** The numeric-model library, as the script uses it: [tf_train c] is the
    model that [tf.sequential], [compile] and [fit] yield when the oracle is
    at draw [c], with the number of draws the library takes;
    [tf_predict m t] is [m.predict(t).dataSync()] on a [1 x 10] tensor. *)
Variable Model : Type.
Variable tf_train : nat -> Model * nat.
Variable tf_predict : Model -> list Q -> Q * Q.

(** The session variables [currentDrug] and [model], the charts, and the
    parts of the page the handlers read and write.  [visibleStep] is the
    index last given to [showStep]. *)
Record Page := mkPage {
  currentDrug : option Drug;
  model : option Model;
  moleculeInput_value : js_string;
  visibleStep : nat;
  propertiesList : list js_string;
  spinner_hidden : bool;
  testBtn_disabled : bool;
  barCanvas_hidden : bool;
  radarCanvas_hidden : bool;
  barChart : option (js_string * js_string);
  radarChart : option (loc * list Q)
}.

Definition set_currentDrug (x : option Drug) (p : Page) : Page :=
  let (_, a, b, c, d, e, f, g, h, i, j) := p in mkPage x a b c d e f g h i j.
Definition set_model (x : option Model) (p : Page) : Page :=
  let (a, _, b, c, d, e, f, g, h, i, j) := p in mkPage a x b c d e f g h i j.
Definition set_visibleStep (x : nat) (p : Page) : Page :=
  let (a, b, c, _, d, e, f, g, h, i, j) := p in mkPage a b c x d e f g h i j.
Definition set_propertiesList (x : list js_string) (p : Page) : Page :=
  let (a, b, c, d, _, e, f, g, h, i, j) := p in mkPage a b c d x e f g h i j.
Definition set_spinner_hidden (x : bool) (p : Page) : Page :=
  let (a, b, c, d, e, _, f, g, h, i, j) := p in mkPage a b c d e x f g h i j.
Definition set_testBtn_disabled (x : bool) (p : Page) : Page :=
  let (a, b, c, d, e, f, _, g, h, i, j) := p in mkPage a b c d e f x g h i j.
Definition set_barCanvas_hidden (x : bool) (p : Page) : Page :=
  let (a, b, c, d, e, f, g, _, h, i, j) := p in mkPage a b c d e f g x h i j.
Definition set_radarCanvas_hidden (x : bool) (p : Page) : Page :=
  let (a, b, c, d, e, f, g, h, _, i, j) := p in mkPage a b c d e f g h x i j.
Definition set_barChart (x : option (js_string * js_string)) (p : Page) : Page :=
  let (a, b, c, d, e, f, g, h, i, _, j) := p in mkPage a b c d e f g h i x j.
Definition set_radarChart (x : option (loc * list Q)) (p : Page) : Page :=
  let (a, b, c, d, e, f, g, h, i, j, _) := p in mkPage a b c d e f g h i j x.

(** [showStep(index)] *)
Definition showStep (index : nat) : ST (Page * World) unit :=
  set_page (set_visibleStep index).

(** [displayProperties(drug)] *)
Definition displayProperties (drug : Drug) : ST (Page * World) unit :=
  set_page (set_propertiesList []);;
  effects ← lift (Array_join (sideEffects drug) (lit ", "));
  set_page (set_propertiesList
    [lit "Name: " ++ name drug;
     lit "Structure: " ++ structure drug;
     lit "Molecular Weight (g/mol): " ++ molWeight drug;
     lit "LogP (lipophilicity): " ++ logP drug;
     lit "Possible Side Effects: " ++ effects]).

(** [buildAndTrainModel()] *)
Definition buildAndTrainModel : M Model := fun w =>
  let (mdl, taken) := tf_train (cursor w) in
  (Normal mdl, mkWorld (heap w) (draws w) (cursor w + taken) (log w ++ [EvTrain])).

(** [model.predict(inputTensor).dataSync()] *)
Definition predict (mdl : Model) (inputTensor : list Q) : M (Q * Q) :=
  emit (EvPredict inputTensor);; mret (tf_predict mdl inputTensor).

(** [renderBarChart(efficacy, toxicity)] *)
Definition renderBarChart (efficacy toxicity : Q) : ST (Page * World) unit :=
  set_page (set_barCanvas_hidden false);;
  set_page (set_barChart (Some (toFixed efficacy 1, toFixed toxicity 1))).

(** [renderRadarChart(effects)] *)
Definition renderRadarChart (effects : loc) : ST (Page * World) unit :=
  set_page (set_radarCanvas_hidden false);;
  n ← lift (Array_length effects);
  scores ← lift (random_scores n);
  set_page (set_radarChart (Some (effects, scores))).

Definition alert_text : js_string := lit "Please enter a molecule design.".

(** The click handler of [createBtn]. *)
Definition createBtn_click : ST (Page * World) unit :=
  p ← get_page;
  let input := trim (moleculeInput_value p) in
  if falsy input then
    lift (emit (EvAlert alert_text))
  else
    drug ← lift (simulateDrugCreation input);
    set_page (set_currentDrug (Some drug));;
    displayProperties drug;;
    showStep 1.

(** The click handler of [nextToTestBtn]. *)
Definition nextToTestBtn_click : ST (Page * World) unit :=
  showStep 2.

(** [currentDrug.structure], [currentDrug.sideEffects]: a property of
    [null] cannot be read. *)
Definition the_drug : ST (Page * World) Drug :=
  p ← get_page;
  match currentDrug p with
  | Some drug => mret drug
  | None => throw TypeError
  end.

(** [model.predict]: likewise. *)
Definition the_model : ST (Page * World) Model :=
  p ← get_page;
  match model p with
  | Some mdl => mret mdl
  | None => throw TypeError
  end.

(** The click handler of [testBtn]. *)
Definition testBtn_click : ST (Page * World) unit :=
  set_page (set_spinner_hidden false);;
  set_page (set_testBtn_disabled true);;
  p ← get_page;
  match model p with
  | Some _ => mret tt
  | None => mdl ← lift buildAndTrainModel; set_page (set_model (Some mdl))
  end;;
  drug ← the_drug;
  let inputTensor := encodeMolecule (structure drug) in
  mdl ← the_model;
  out ← lift (predict mdl inputTensor);
  set_page (set_spinner_hidden true);;
  renderBarChart (fst out * 100)%Q (snd out * 100)%Q;;
  drug ← the_drug;
  renderRadarChart (sideEffects drug).

(** What the user does. *)
Inductive action :=
  | TypeInput (s : js_string)
  | ClickCreate
  | ClickNext
  | ClickTest.

Definition set_input (s : js_string) (p : Page) : Page :=
  let (a, b, _, c, d, e, f, g, h, i, j) := p in mkPage a b s c d e f g h i j.

(** One action of the session; an exception a handler does not catch ends
    the handler and leaves the page and the world as they are then. *)
Definition step (s : Page * World) (a : action) : Page * World :=
  match a with
  | TypeInput v => (set_input v (fst s), snd s)
  | ClickCreate => snd (createBtn_click s)
  | ClickNext => snd (nextToTestBtn_click s)
  | ClickTest => snd (testBtn_click s)
  end.

Definition run (s : Page * World) (acts : list action) : Page * World :=
  fold_left step acts s.

(** The page when the script has loaded: no Drug, no model, step 0 shown,
    no chart.  The markup is not among the sources; the spinner and the
    canvases start hidden and the button enabled, as the handlers expect. *)
Definition initial_page : Page :=
  mkPage None None [] 0 [] true false true true None None.

End WithTF.

Arguments mkPage {Model}.
Arguments currentDrug {Model} p.
Arguments model {Model} p.
Arguments moleculeInput_value {Model} p.
Arguments visibleStep {Model} p.
Arguments propertiesList {Model} p.
Arguments spinner_hidden {Model} p.
Arguments testBtn_disabled {Model} p.
Arguments barCanvas_hidden {Model} p.
Arguments radarCanvas_hidden {Model} p.
Arguments barChart {Model} p.
Arguments radarChart {Model} p.
Arguments set_currentDrug {Model} x p.
Arguments set_model {Model} x p.
Arguments set_visibleStep {Model} x p.
Arguments set_propertiesList {Model} x p.
Arguments set_spinner_hidden {Model} x p.
Arguments set_testBtn_disabled {Model} x p.
Arguments set_barCanvas_hidden {Model} x p.
Arguments set_radarCanvas_hidden {Model} x p.
Arguments set_barChart {Model} x p.
Arguments set_radarChart {Model} x p.
Arguments set_input {Model} s p.
Arguments showStep {Model} index.
Arguments displayProperties {Model} drug.
Arguments buildAndTrainModel {Model} tf_train.
Arguments predict {Model} tf_predict mdl inputTensor.
Arguments renderBarChart {Model} efficacy toxicity.
Arguments renderRadarChart {Model} effects.
Arguments createBtn_click {Model}.
Arguments nextToTestBtn_click {Model}.
Arguments the_drug {Model}.
Arguments the_model {Model}.
Arguments testBtn_click {Model} tf_train tf_predict.
Arguments step {Model} tf_train tf_predict s a.
Arguments run {Model} tf_train tf_predict s acts.
Arguments initial_page {Model}.

End Enhanced.


(** ** Vocabulary of the properties *)

(** The base-36 digits after the point that [toString(36)] prints for a
    draw. *)
Definition base36_digits (r : U01) : list N :=
  frac_digits (expo r) (mant r) (Npos (pow2 (expo r))).

(** [0-9A-Z] *)
Definition is_upper_base36 (c : N) : bool :=
  ((48 <=? c) && (c <=? 57) || (65 <=? c) && (c <=? 90))%N.

(** The spec's pattern for a name: ["FX-"], then five or six characters of
    [0-9A-Z]. *)
Definition name_pattern (s : js_string) : bool :=
  match s with
  | 70%N :: 88%N :: 45%N :: t =>
      (5 <=? length t) && (length t <=? 6) && forallb is_upper_base36 t
  | _ => false
  end.

(** [0-9] *)
Definition is_digit (c : N) : bool := ((48 <=? c) && (c <=? 57))%N.

Definition digits_value (ds : js_string) : N :=
  fold_left (fun acc c => (10 * acc + (c - 48))%N) ds 0%N.

(** A decimal integer part: digits, no leading zero but in ["0"]. *)
Definition is_integer_part (ds : js_string) : bool :=
  match ds with
  | [] => false
  | [c] => is_digit c
  | c :: _ => forallb is_digit ds && negb (c =? 48)%N
  end.

(** The number of tenths a string of the form [digits . digit] denotes;
    [None] on any other string. *)
Definition parse_fixed1 (s : js_string) : option N :=
  match rev s with
  | d :: 46%N :: rint =>
      if is_digit d && is_integer_part (rev rint)
      then Some (10 * digits_value (rev rint) + (d - 48))%N
      else None
  | _ => None
  end.

(** A decimal string with one decimal place whose value is in [[0,100]]. *)
Definition percent1 (s : js_string) : bool :=
  match parse_fixed1 s with
  | Some tenths => (tenths <=? 1000)%N
  | None => false
  end.

Definition fixed1_reads_back (k : nat) : bool :=
  match parse_fixed1 (fixed_digits (N.of_nat k) 1) with
  | Some m => (m =? N.of_nat k)%N
  | None => false
  end.

(** The number of times the model was built and trained. *)
Fixpoint trainings (lg : list event) : nat :=
  match lg with
  | [] => 0
  | EvTrain :: lg' => S (trainings lg')
  | _ :: lg' => trainings lg'
  end.

(** The page that a completed test action leaves. *)
Definition tested_page {Model : Type} (tf_predict : Model -> list Q -> Q * Q)
    (p : Enhanced.Page Model) (m : Model) (d : Enhanced.Drug) (scores : list Q)
    : Enhanced.Page Model :=
  let out := tf_predict m (Enhanced.encodeMolecule (Enhanced.structure d)) in
  Enhanced.set_radarChart (Some (Enhanced.sideEffects d, scores))
    (Enhanced.set_radarCanvas_hidden false
       (Enhanced.set_barChart
          (Some (toFixed (fst out * 100)%Q 1, toFixed (snd out * 100)%Q 1))
          (Enhanced.set_barCanvas_hidden false
             (Enhanced.set_spinner_hidden true
                (Enhanced.set_testBtn_disabled true
                   (Enhanced.set_spinner_hidden false p)))))).

(** *** Concrete inputs *)

(** The draws 0 and 0.5, as multiples of [2^-53]. *)
Definition zero_draw : U01 := mkU01 0 53 eq_refl.
Definition half_draw : U01 := mkU01 4503599627370496 53 eq_refl.

Definition world_of (h : gmap loc (list js_string)) (r : U01) : World :=
  mkWorld h (fun _ => r) 0 [].

(** A numeric-model library for the closed examples: the model is the
    cursor it was trained at, its outputs are 0.5 and 0.25. *)
Definition toy_train (c : nat) : nat * nat := (c, 0).
Definition toy_predict (m : nat) (t : list Q) : Q * Q := ((1 # 2)%Q, (1 # 4)%Q).

Definition caffeine_drug : Enhanced.Drug :=
  Enhanced.mkDrug (lit "FX-I") (lit "enieffac-MOL") (lit "350.0") (lit "2.00") 1%positive.

Definition three_effects : list js_string :=
  [lit "Headache"; lit "Dizziness"; lit "Fatigue"].


(** *** Sessions of the basic variant *)

(** What the user does on the page of the basic variant. *)
Inductive basic_action :=
  | BTypeInput (s : js_string)
  | BClickCreate
  | BClickTest.

Definition basic_set_input (s : js_string) (p : Basic.Page) : Basic.Page :=
  Basic.mkPage (Basic.currentDrug p) s (Basic.resultOutput_textContent p)
    (Basic.testBtn_disabled p).

(** One action of a session of the basic variant. *)
Definition basic_step (s : Basic.Page * World) (a : basic_action) : Basic.Page * World :=
  match a with
  | BTypeInput v => (basic_set_input v (fst s), snd s)
  | BClickCreate => snd (Basic.createBtn_click s)
  | BClickTest => snd (Basic.testBtn_click s)
  end.

Definition basic_run (s : Basic.Page * World) (acts : list basic_action)
    : Basic.Page * World :=
  fold_left basic_step acts s.

(** A string with no white space at either end. *)
Definition starts_clean (s : js_string) : Prop :=
  match s with
  | [] => True
  | c :: _ => is_white_space c = false
  end.

(** What every Drug stored by the basic variant satisfies: it was made from
    a non-empty input with no white space at either end. *)
Definition made_from_trimmed (d : Basic.Drug) : Prop :=
  exists input : js_string,
    input <> [] /\ trim input = input
    /\ Basic.structure d = rev input ++ lit "-mol".

(** The block of text that a test action appends to the output panel. *)
Definition test_block (efficacy toxicity e1 e2 : js_string) : js_string :=
  Basic.nl ++ Basic.nl ++ [55357%N; 56589%N] ++ lit " Testing drug" ++ [8230%N] ++ Basic.nl
  ++ lit "Predicted Efficacy: " ++ efficacy ++ lit "%" ++ Basic.nl
  ++ lit "Predicted Toxicity: " ++ toxicity ++ lit "%" ++ Basic.nl
  ++ lit "Predicted Side Effects: " ++ e1 ++ lit ", " ++ e2.

(** The condition that the sessions of the basic variant keep: when there
    is a Drug, the test button is enabled and the Drug was made from a
    trimmed, non-empty input. *)
Definition basic_page_ok (p : Basic.Page) : Prop :=
  match Basic.currentDrug p with
  | None => True
  | Some d => Basic.testBtn_disabled p = false /\ made_from_trimmed d
  end.

(** *** What [showStep] renders

    [showStep(index)] on a page with [n] steps: the [hidden] flag it gives
    to each step, [i !== index], and the width of the progress bar in
    percent, [(index / (n - 1)) * 100]; [None] where that is a division by
    zero, which gives no finite number. *)
Definition showStep_hidden (n index : nat) : list bool :=
  map (fun i => negb (i =? index)) (seq 0 n).

Definition showStep_progress (n index : nat) : option Q :=
  let d := (Z.of_nat n - 1)%Z in
  if (d =? 0)%Z then None
  else Some (inject_Z (Z.of_nat index) / inject_Z d * 100)%Q.

(** * Properties *)

(** ** The built-ins on known values *)

Example trim_example : trim (lit "  aspirin 2 ") = lit "aspirin 2".
Proof. reflexivity. Qed.

Example toString36_half : toString36 half_draw = lit "0.i".
Proof. vm_compute. reflexivity. Qed.

Example toString36_zero : toString36 zero_draw = lit "0".
Proof. reflexivity. Qed.

Example toString36_sixteenth : toString36 (mkU01 1 4 eq_refl) = lit "0.29".
Proof. reflexivity. Qed.

Example toFixed_examples :
  toFixed (1234 # 100)%Q 1 = lit "12.3"
  /\ toFixed (5 # 100)%Q 1 = lit "0.1"
  /\ toFixed (- (4 # 1000))%Q 2 = lit "-0.00"
  /\ toFixed 100%Q 1 = lit "100.0"
  /\ toFixed (9996 # 100)%Q 1 = lit "100.0".
Proof. repeat split; vm_compute; reflexivity. Qed.

Example slice_substr_example :
  slice (lit "0.4fzyo82mvyr") 2 7 = lit "4fzyo"
  /\ substr (lit "0.4fzyo82mvyr") 2 5 = lit "4fzyo"
  /\ slice (lit "0") 2 7 = [].
Proof. repeat split; reflexivity. Qed.

Example join_example :
  join (lit ", ") [lit "Nausea"; lit "Fatigue"] = lit "Nausea, Fatigue".
Proof. reflexivity. Qed.

(** ** Strings *)

Lemma join_empty_concat (a : list js_string) : join [] a = concat a.
Proof.
  induction a as [|x a IH]; [done|].
  destruct a as [|y a]; simpl in *.
  - by rewrite app_nil_r.
  - by rewrite IH.
Qed.

Lemma concat_split_units (s : js_string) : concat (split_units s) = s.
Proof. induction s as [|c s IH]; simpl; congruence. Qed.

(** [s.split('').reverse().join('')] is [s] with its code units in reverse
    order. *)
Lemma reverse_units (s : js_string) : join [] (rev (split_units s)) = rev s.
Proof.
  rewrite join_empty_concat. unfold split_units.
  induction s as [|c s IH]; [done|].
  simpl. rewrite concat_app, IH. simpl. done.
Qed.

Lemma slice_0 {A} (l : list A) (n : nat) : slice l 0 n = take n l.
Proof.
  unfold slice. rewrite Nat.min_0_l, Nat.sub_0_r, drop_0.
  destruct (decide (n <= length l)) as [Hle|Hgt].
  - by rewrite Nat.min_l.
  - rewrite Nat.min_r by lia. rewrite !take_ge; [done|lia..].
Qed.

(** On every string [substr(2, 5)] and [slice(2, 7)] take the same units. *)
Lemma substr_2_5_slice_2_7 {A} (s : list A) : substr s 2 5 = slice s 2 7.
Proof.
  unfold substr, slice.
  destruct (decide (length s <= 2)) as [Hle|Hgt].
  - rewrite (Nat.min_r 2 (length s)) by done.
    rewrite drop_all. by rewrite !take_nil.
  - rewrite (Nat.min_l 2 (length s)) by lia.
    f_equal. lia.
Qed.

(** ** Draws *)

Lemma mant_bound (r : U01) : (0 <= Z.of_N (mant r) < Z.pos (pow2 (expo r)))%Z.
Proof.
  pose proof (mant_lt r) as H. apply N.ltb_lt in H. lia.
Qed.

(** A draw of [Math.random()] lies in [[0,1)]. *)
Lemma U01_val_range (r : U01) : (0 <= U01_val r)%Q /\ (U01_val r < 1)%Q.
Proof.
  pose proof (mant_bound r) as H.
  unfold U01_val, Qle, Qlt; simpl. lia.
Qed.

Lemma Qfloor_scaled (r : U01) (k : Z) :
  Qfloor (U01_val r * inject_Z k) = (Z.of_N (mant r) * k / Z.pos (pow2 (expo r)))%Z.
Proof.
  unfold U01_val, Qfloor, Qmult, inject_Z; simpl.
  by rewrite Pos.mul_1_r.
Qed.

(** [Math.floor(Math.random() * n)] is one of [0 .. n-1]. *)
Lemma random_floor_range (r : U01) (n : nat) :
  0 < n ->
  (0 <= Qfloor (U01_val r * inject_Z (Z.of_nat n)) < Z.of_nat n)%Z.
Proof.
  intros Hn. rewrite Qfloor_scaled.
  pose proof (mant_bound r) as [H0 H1].
  split.
  - apply Z.div_pos; lia.
  - apply Z.div_lt_upper_bound; nia.
Qed.

(** ** Exchanging two elements *)

Lemma insert_Permutation_delete {A} (l : list A) (i : nat) (x : A) :
  i < length l -> <[i := x]> l ≡ₚ x :: delete i l.
Proof.
  intros Hi. rewrite insert_take_drop, delete_take_drop by done.
  by rewrite Permutation_middle.
Qed.

Lemma swap_Some {A} (l : list A) (i j : nat) :
  i < length l -> j < length l ->
  exists l', swap l i j = Some l' /\ l' ≡ₚ l /\ length l' = length l.
Proof.
  intros Hi Hj. unfold swap.
  destruct (lookup_lt_is_Some_2 l i Hi) as [x Hx].
  destruct (lookup_lt_is_Some_2 l j Hj) as [y Hy].
  rewrite Hx, Hy. eexists; split; [done|]. split.
  - destruct (decide (i = j)) as [->|Hne].
    + assert (x = y) as -> by congruence.
      rewrite list_insert_insert_eq. by rewrite list_insert_id.
    + assert (Hj' : j < length (<[i := y]> l)) by by rewrite length_insert.
      assert (Hlk : <[i := y]> l !! j = Some y) by by rewrite list_lookup_insert_ne.
      etrans; [by apply insert_Permutation_delete|].
      etrans; [|symmetry; by apply (delete_Permutation l i x)].
      apply Permutation_skip.
      apply (Permutation_cons_inv (a := y)).
      etrans; [symmetry; by apply delete_Permutation|].
      by apply insert_Permutation_delete.
  - by rewrite !length_insert.
Qed.

(** ** The monad *)

Lemma bind_Normal {S A B} (c : ST S A) (f : A -> ST S B) (s s' : S) (a : A) :
  c s = (Normal a, s') -> (c ≫= f) s = f a s'.
Proof. intros H. unfold mbind, ST_bind. by rewrite H. Qed.

Lemma bind_Throw {S A B} (c : ST S A) (f : A -> ST S B) (s s' : S) (e : js_error) :
  c s = (Throw e, s') -> (c ≫= f) s = (Throw e, s').
Proof. intros H. unfold mbind, ST_bind. by rewrite H. Qed.

Lemma swap_at_in_range (a : loc) (i j : nat) (w : World) (l : list js_string) :
  heap w !! a = Some l -> i < length l -> j < length l ->
  exists l', swap_at a i j w
             = (Normal tt, mkWorld (<[a := l']> (heap w)) (draws w) (cursor w) (log w))
    /\ swap l i j = Some l' /\ l' ≡ₚ l /\ length l' = length l.
Proof.
  intros Hl Hi Hj.
  destruct (swap_Some l i j Hi Hj) as (l' & Hsw & Hp & Hlen).
  exists l'. split; [|done].
  unfold swap_at, contents, mbind, ST_bind. rewrite Hl. simpl. by rewrite Hsw.
Qed.

(** ** The shuffle of the basic variant *)

(** The loop runs to its end, never reads out of range, takes one draw per
    round and leaves a permutation in the array. *)
Lemma shuffle_loop_spec (array : loc) (i : nat) :
  forall (w : World) (l : list js_string),
    heap w !! array = Some l -> i <= pred (length l) ->
    exists l',
      Basic.shuffle_loop array i w
      = (Normal tt, mkWorld (<[array := l']> (heap w)) (draws w) (cursor w + i) (log w))
      /\ l' ≡ₚ l.
Proof.
  induction i as [|i IH]; intros [h d c lg] l Hl Hi; simpl in Hl, Hi.
  - exists l. split; [|done]. simpl.
    unfold mret, ST_ret. by rewrite insert_id, Nat.add_0_r.
  - pose proof (random_floor_range (d c) (S i + 1) ltac:(lia)) as Hj.
    set (j := Qfloor (U01_val (d c) * inject_Z (Z.of_nat (S i + 1)))) in *.
    set (w1 := mkWorld h d (S c) lg).
    destruct (swap_at_in_range array (S i) (Z.to_nat j) w1 l Hl) as (l1 & Hsw & _ & Hp1 & Hlen1);
      [lia | lia |].
    set (w2 := mkWorld (<[array := l1]> h) d (S c) lg).
    destruct (IH w2 l1) as (l' & Hloop & Hp');
      [apply lookup_insert_eq | lia |].
    exists l'. split; [|by etrans].
    cbn [Basic.shuffle_loop].
    erewrite bind_Normal; [|reflexivity].
    erewrite bind_Normal; [|apply Hsw].
    etrans; [apply Hloop|]. unfold w2; simpl.
    rewrite insert_insert_eq. do 2 f_equal. lia.
Qed.

Lemma fresh_loc_unused (h : gmap loc (list js_string)) : h !! fresh (dom h) = None.
Proof. apply not_elem_of_dom, is_fresh. Qed.

(** [shuffleArray(arr)] returns a new array that holds a permutation of
    [arr], and writes to that new array only. *)
Lemma shuffleArray_spec (arr : loc) (w : World) :
  let l := default [] (heap w !! arr) in
  let array := fresh (dom (heap w)) in
  exists l',
    Basic.shuffleArray arr w
    = (Normal array,
       mkWorld (<[array := l']> (heap w)) (draws w) (cursor w + (length l - 1)) (log w))
    /\ l' ≡ₚ l.
Proof.
  intros l array.
  set (w1 := mkWorld (<[array := l]> (heap w)) (draws w) (cursor w) (log w)).
  destruct (shuffle_loop_spec array (length l - 1) w1 l) as (l' & Hloop & Hp);
    [apply lookup_insert_eq | lia |].
  exists l'. split; [|done].
  unfold Basic.shuffleArray.
  erewrite bind_Normal; [|reflexivity].
  erewrite bind_Normal;
    [|unfold Array_length; erewrite bind_Normal; [|reflexivity]; reflexivity].
  simpl. rewrite lookup_insert_eq. simpl.
  erewrite bind_Normal; [|apply Hloop].
  unfold mret, ST_ret, w1; simpl. by rewrite insert_insert_eq.
Qed.

(** [shuffleAndTake(items, n)] of the basic variant: it completes normally
    for every [n], returns a new array with the first [n] elements of a
    permutation of [items] (all of them when [n] is larger), and leaves
    every array that existed before as it was. *)
Lemma shuffleAndTake_spec (items : loc) (n : nat) (w : World) (l : list js_string) :
  heap w !! items = Some l ->
  exists (b : loc) (l' : list js_string) (w' : World),
    Basic.shuffleAndTake items n w = (Normal b, w')
    /\ heap w' !! b = Some (take n l')
    /\ l' ≡ₚ l
    /\ heap w !! b = None
    /\ (forall a, is_Some (heap w !! a) -> heap w' !! a = heap w !! a)
    /\ cursor w' = cursor w + (length l - 1)
    /\ log w' = log w.
Proof.
  intros Hl.
  destruct (shuffleArray_spec items w) as (l' & Hsh & Hp).
  rewrite Hl in Hsh, Hp. simpl in Hsh, Hp.
  set (array := fresh (dom (heap w))) in *.
  set (h1 := <[array := l']> (heap w)) in *.
  set (b := fresh (dom h1)).
  assert (Harr : heap w !! array = None) by apply fresh_loc_unused.
  assert (Hb : h1 !! b = None) by apply fresh_loc_unused.
  assert (Hba : b <> array).
  { intros ->. unfold h1 in Hb. by rewrite lookup_insert_eq in Hb. }
  exists b, l', (mkWorld (<[b := take n l']> h1) (draws w) (cursor w + (length l - 1)) (log w)).
  split; [|split; [|split; [|split; [|split]]]]; simpl.
  - unfold Basic.shuffleAndTake.
    erewrite bind_Normal; [|apply Hsh].
    unfold Array_slice. erewrite bind_Normal; [|reflexivity].
    unfold alloc; simpl.
    replace (h1 !! array) with (Some l') by (symmetry; apply lookup_insert_eq).
    simpl. by rewrite slice_0.
  - apply lookup_insert_eq.
  - done.
  - unfold h1 in Hb. by rewrite lookup_insert_ne in Hb.
  - intros a [x Ha].
    rewrite lookup_insert_ne by (intros ->; unfold h1 in Hb;
      rewrite lookup_insert_ne in Hb by done; congruence).
    unfold h1. rewrite lookup_insert_ne by congruence. done.
  - done.
Qed.

(** ** [tf.util.shuffle] and [pickRandom] *)

Lemma swap_at_Normal (a : loc) (i j : nat) (w : World) :
  exists h', swap_at a i j w = (Normal tt, mkWorld h' (draws w) (cursor w) (log w)).
Proof.
  unfold swap_at, contents, mbind, ST_bind.
  destruct (swap (default [] (heap w !! a)) i j) as [l'|].
  - by eexists.
  - exists (heap w). by destruct w.
Qed.

(** The loop of [tf.util.shuffle] runs to its end on every array. *)
Lemma tf_shuffle_loop_Normal (array : loc) (n : nat) :
  forall w : World,
    exists h', tf_shuffle_loop array n w
               = (Normal tt, mkWorld h' (draws w) (cursor w + n) (log w)).
Proof.
  induction n as [|n IH]; intros [h d c lg].
  - exists h. simpl. unfold mret, ST_ret. by rewrite Nat.add_0_r.
  - cbn [tf_shuffle_loop].
    erewrite bind_Normal; [|reflexivity].
    set (w1 := mkWorld h d (S c) lg).
    destruct (swap_at_Normal array n
                (Z.to_nat (to_int32 (Qtrunc (U01_val (d c) * inject_Z (Z.of_nat (S n)))))) w1)
      as [h1 Hsw].
    erewrite bind_Normal; [|apply Hsw].
    destruct (IH (mkWorld h1 d (S c) lg)) as [h' Hloop].
    exists h'. etrans; [apply Hloop|]. simpl. do 2 f_equal. lia.
Qed.

(** [tf.util.shuffle(array)] evaluates to [undefined]. *)
Lemma tf_util_shuffle_undefined (array : loc) (w : World) :
  exists h' c',
    tf_util_shuffle array w = (Normal VUndefined, mkWorld h' (draws w) c' (log w)).
Proof.
  unfold tf_util_shuffle, Array_length.
  erewrite bind_Normal; [|erewrite bind_Normal; [|reflexivity]; reflexivity].
  destruct (tf_shuffle_loop_Normal array (length (default [] (heap w !! array))) w)
    as [h' Hloop].
  erewrite bind_Normal; [|apply Hloop].
  by eexists _, _.
Qed.

(** [pickRandom(arr, n)] throws on every array and every [n]: it asks
    [undefined] for its [slice]. *)
Lemma pickRandom_throws (arr : loc) (n : nat) (w : World) :
  exists h' c',
    Enhanced.pickRandom arr n w = (Throw TypeError, mkWorld h' (draws w) c' (log w)).
Proof.
  destruct (tf_util_shuffle_undefined arr w) as (h' & c' & Hsh).
  exists h', c'. unfold Enhanced.pickRandom.
  erewrite bind_Normal; [|apply Hsh]. done.
Qed.

(** [simulateDrugCreation] of the enhanced variant returns no Drug: on
    every input and in every world it throws, after its draws. *)
Lemma enhanced_simulateDrugCreation_throws (input : js_string) (w : World) :
  exists h' c',
    Enhanced.simulateDrugCreation input w
    = (Throw TypeError, mkWorld h' (draws w) c' (log w)).
Proof.
  unfold Enhanced.simulateDrugCreation.
  do 4 (erewrite bind_Normal; [|reflexivity]).
  match goal with
  | |- ex (fun _ => ex (fun _ => (Enhanced.pickRandom ?a ?n ≫= _) ?w1 = _)) =>
      destruct (pickRandom_throws a n w1) as (h' & c' & Hpick)
  end.
  exists h', c'. erewrite bind_Throw; [done|apply Hpick].
Qed.

Lemma to_int32_small (z : Z) : (0 <= z < 2 ^ 31)%Z -> to_int32 z = z.
Proof. intros H. unfold to_int32. rewrite Z.mod_small; lia. Qed.

(** [(Math.random() * n) | 0] is one of [0 .. n-1] for an array length
    [n] below [2^31]. *)
Lemma random_int32_range (r : U01) (n : nat) :
  0 < n -> (Z.of_nat n < 2 ^ 31)%Z ->
  (0 <= to_int32 (Qtrunc (U01_val r * inject_Z (Z.of_nat n))) < Z.of_nat n)%Z.
Proof.
  intros Hn Hsmall.
  pose proof (random_floor_range r n Hn) as Hfl.
  assert (Hpos : Qle_bool 0 (U01_val r * inject_Z (Z.of_nat n)) = true).
  { apply Qle_bool_iff. apply Qmult_le_0_compat; [apply U01_val_range|].
    unfold Qle; simpl. lia. }
  unfold Qtrunc. rewrite Hpos. rewrite to_int32_small; lia.
Qed.

(** On an array shorter than [2^31] the loop of [tf.util.shuffle] never
    reads out of range and leaves a permutation in the array it was
    given. *)
Lemma tf_shuffle_loop_spec (array : loc) (n : nat) :
  forall (w : World) (l : list js_string),
    heap w !! array = Some l -> n <= length l -> (Z.of_nat (length l) < 2 ^ 31)%Z ->
    exists l',
      tf_shuffle_loop array n w
      = (Normal tt, mkWorld (<[array := l']> (heap w)) (draws w) (cursor w + n) (log w))
      /\ l' ≡ₚ l.
Proof.
  induction n as [|n IH]; intros [h d c lg] l Hl Hn Hsmall; simpl in Hl.
  - exists l. split; [|done]. simpl.
    unfold mret, ST_ret. by rewrite insert_id, Nat.add_0_r.
  - pose proof (random_int32_range (d c) (S n) ltac:(lia) ltac:(lia)) as Hj.
    set (j := to_int32 (Qtrunc (U01_val (d c) * inject_Z (Z.of_nat (S n))))) in *.
    set (w1 := mkWorld h d (S c) lg).
    destruct (swap_at_in_range array n (Z.to_nat j) w1 l Hl) as (l1 & Hsw & _ & Hp1 & Hlen1);
      [lia | lia |].
    set (w2 := mkWorld (<[array := l1]> h) d (S c) lg).
    destruct (IH w2 l1) as (l' & Hloop & Hp');
      [apply lookup_insert_eq | lia | lia |].
    exists l'. split; [|by etrans].
    cbn [tf_shuffle_loop].
    erewrite bind_Normal; [|reflexivity].
    erewrite bind_Normal; [|apply Hsw].
    etrans; [apply Hloop|]. unfold w2; simpl.
    rewrite insert_insert_eq. do 2 f_equal. lia.
Qed.

(** [pickRandom(arr, n)] permutes the caller's array in place, then
    throws. *)
Lemma pickRandom_in_place (arr : loc) (n : nat) (w : World) (l : list js_string) :
  heap w !! arr = Some l -> (Z.of_nat (length l) < 2 ^ 31)%Z ->
  exists l',
    Enhanced.pickRandom arr n w
    = (Throw TypeError,
       mkWorld (<[arr := l']> (heap w)) (draws w) (cursor w + length l) (log w))
    /\ l' ≡ₚ l.
Proof.
  intros Hl Hsmall.
  destruct (tf_shuffle_loop_spec arr (length l) w l Hl (le_n _) Hsmall) as (l' & Hloop & Hp).
  exists l'. split; [|done].
  assert (Hsh : tf_util_shuffle arr w
                = (Normal VUndefined,
                   mkWorld (<[arr := l']> (heap w)) (draws w) (cursor w + length l) (log w))).
  { unfold tf_util_shuffle, Array_length.
    erewrite bind_Normal; [|erewrite bind_Normal; [|reflexivity]; reflexivity].
    simpl. rewrite Hl. simpl.
    erewrite bind_Normal; [|apply Hloop]. done. }
  unfold Enhanced.pickRandom.
  erewrite bind_Normal; [|apply Hsh]. done.
Qed.

(** ** The name token *)

Lemma frac_digits_bound (fuel : nat) :
  forall num den : N,
    (num < den)%N -> Forall (fun d => (d < 36)%N) (frac_digits fuel num den).
Proof.
  induction fuel as [|fuel IH]; intros num den Hlt; cbn [frac_digits]; [constructor|].
  destruct (num =? 0)%N; [constructor|].
  constructor.
  - apply N.Div0.div_lt_upper_bound. lia.
  - apply IH. apply N.mod_lt. lia.
Qed.

Lemma base36_digits_bound (r : U01) : Forall (fun d => (d < 36)%N) (base36_digits r).
Proof.
  apply frac_digits_bound. pose proof (mant_lt r) as H. by apply N.ltb_lt in H.
Qed.

Lemma upper_digit_char (d : N) :
  (d < 36)%N -> is_upper_base36 (upper_unit (digit_char d)) = true.
Proof.
  intros Hd. unfold is_upper_base36, upper_unit, digit_char.
  destruct (N.ltb_spec d 10).
  - replace ((97 <=? 48 + d) && (48 + d <=? 122))%N with false
      by (symmetry; apply andb_false_iff; left; apply N.leb_gt; lia).
    apply orb_true_iff; left. apply andb_true_iff; split; apply N.leb_le; lia.
  - replace ((97 <=? 87 + d) && (87 + d <=? 122))%N with true
      by (symmetry; apply andb_true_iff; split; apply N.leb_le; lia).
    apply orb_true_iff; right. apply andb_true_iff; split; apply N.leb_le; lia.
Qed.

(** [toString(36).substr(2, 5)] is the first five digits after the point,
    or all of them when there are fewer. *)
Lemma token_digits (r : U01) :
  substr (toString36 r) 2 5 = take 5 (map digit_char (base36_digits r)).
Proof.
  unfold toString36, base36_digits.
  destruct (N.eqb_spec (mant r) 0) as [Hz|Hnz].
  - rewrite Hz. destruct (expo r); reflexivity.
  - set (ds := map digit_char _).
    unfold substr. change (lit "0." ++ ds) with (48%N :: 46%N :: ds).
    cbn [length]. rewrite (Nat.min_l 2) by lia. cbn [drop]. rewrite drop_0.
    destruct (decide (5 <= length ds)).
    + f_equal. lia.
    + replace (Nat.min 5 (S (S (length ds)) - 2)) with (length ds) by lia.
      by rewrite (take_ge ds (length ds)), (take_ge ds 5) by lia.
Qed.

(** The token of a name: at most five characters, all of [0-9A-Z]. *)
Lemma name_token_digits (r : U01) :
  let t := toUpperCase (substr (toString36 r) 2 5) in
  length t <= 5
  /\ Forall (fun c => is_upper_base36 c = true) t.
Proof.
  simpl. rewrite token_digits. unfold toUpperCase. split.
  - rewrite length_map, length_take, length_map. lia.
  - rewrite firstn_map, !Forall_map.
    apply Forall_take.
    eapply Forall_impl; [apply base36_digits_bound|].
    intros d Hd. by apply upper_digit_char.
Qed.

(** The same holds of whatever digits an engine prints: the token cut out
    of ["0"], or of ["0."] followed by base-36 digits, has at most five
    characters, all of [0-9A-Z]. *)
Lemma name_token_any_rendering (ds : list N) (s : js_string) :
  Forall (fun d => (d < 36)%N) ds ->
  s = lit "0" \/ s = lit "0." ++ map digit_char ds ->
  length (toUpperCase (substr s 2 5)) <= 5
  /\ Forall (fun c => is_upper_base36 c = true) (toUpperCase (substr s 2 5)).
Proof.
  intros Hds [-> | ->]; [split; [vm_compute; lia|constructor]|].
  unfold substr, toUpperCase.
  change (lit "0." ++ map digit_char ds) with (48%N :: 46%N :: map digit_char ds).
  cbn [length]. rewrite (Nat.min_l 2) by lia. cbn [drop]. rewrite drop_0. split.
  - rewrite length_map, length_take. lia.
  - rewrite Forall_map. apply Forall_take. rewrite Forall_map.
    eapply Forall_impl; [exact Hds|].
    intros d Hd. by apply upper_digit_char.
Qed.

(** ** Creation in the basic variant *)

Lemma basic_simulateDrugCreation_eq (input : js_string) (w : World) :
  Basic.simulateDrugCreation input w
  = (Normal (Basic.mkDrug
               (lit "FX-" ++ toUpperCase (substr (toString36 (draws w (cursor w))) 2 5))
               (rev input ++ Basic.suffix)
               (lit "Fictional compound inspired by " ++ [34%N] ++ input ++ [34%N]
                ++ lit ", for demo use only.")),
     mkWorld (heap w) (draws w) (S (cursor w)) (log w)).
Proof.
  unfold Basic.simulateDrugCreation.
  erewrite bind_Normal; [|reflexivity].
  unfold mret, ST_ret. by rewrite reverse_units.
Qed.

(** ** Blank input *)

Lemma trim_start_blank (s : js_string) :
  Forall (fun c => is_white_space c = true) s -> trim_start s = [].
Proof.
  induction 1 as [|c s Hc _ IH]; [done|]. simpl. by rewrite Hc.
Qed.

Lemma trim_blank (s : js_string) :
  Forall (fun c => is_white_space c = true) s -> trim s = [].
Proof. intros H. unfold trim. by rewrite (trim_start_blank s H). Qed.

(** ** Percentages with one decimal *)

Lemma fixed1_table : forallb fixed1_reads_back (seq 0 1001) = true.
Proof. vm_compute. reflexivity. Qed.

(** Up to 1000 tenths, what [toFixed(1)] prints reads back as the number
    of tenths it was given. *)
Lemma fixed1_roundtrip (n : N) :
  (n <= 1000)%N -> parse_fixed1 (fixed_digits n 1) = Some n.
Proof.
  intros Hn.
  pose proof fixed1_table as Htab.
  rewrite forallb_forall in Htab.
  specialize (Htab (N.to_nat n)).
  unfold fixed1_reads_back in Htab. rewrite N2Nat.id in Htab.
  destruct (parse_fixed1 (fixed_digits n 1)) as [m|].
  - f_equal. apply N.eqb_eq. apply Htab. apply in_seq. lia.
  - discriminate Htab. apply in_seq. lia.
Qed.

Lemma nearest_scaled_percent (x : Q) :
  (0 <= x)%Q -> (x <= 100)%Q -> (nearest_scaled x 1 <= 1000)%N.
Proof.
  intros H0 H100. unfold nearest_scaled.
  change (10 ^ Z.of_nat 1)%Z with 10%Z.
  assert (Hle : (Qfloor (x * inject_Z 10 + (1 # 2)) <= 1000)%Z).
  { change 1000%Z with (Qfloor (2001 # 2)).
    apply Qfloor_resp_le. change (inject_Z 10) with 10%Q. lra. }
  lia.
Qed.

(** [x.toFixed(1)] for [x] in [[0,100]] is a percentage with one decimal,
    the nearest number of tenths. *)
Lemma toFixed_percent (x : Q) :
  (0 <= x)%Q -> (x <= 100)%Q ->
  parse_fixed1 (toFixed x 1) = Some (nearest_scaled x 1)
  /\ percent1 (toFixed x 1) = true.
Proof.
  intros H0 H100.
  pose proof (nearest_scaled_percent x H0 H100) as Hn.
  assert (Hparse : parse_fixed1 (toFixed x 1) = Some (nearest_scaled x 1)).
  { unfold toFixed. rewrite (proj2 (Qle_bool_iff 0 x) H0).
    by apply fixed1_roundtrip. }
  split; [done|].
  unfold percent1. rewrite Hparse. by apply N.leb_le.
Qed.

Lemma random_percent (r : U01) :
  (0 <= U01_val r * 100)%Q /\ (U01_val r * 100 <= 100)%Q.
Proof. pose proof (U01_val_range r). lra. Qed.

(** ** The fuel of the digit loops is enough *)

Lemma digits_value_snoc (ds : js_string) (c : N) :
  digits_value (ds ++ [c]) = (10 * digits_value ds + (c - 48))%N.
Proof. unfold digits_value. by rewrite fold_left_app. Qed.

Lemma decimal_fuel_value (fuel : nat) :
  forall n : N, (n < 2 ^ N.of_nat fuel)%N -> digits_value (decimal_fuel fuel n) = n.
Proof.
  induction fuel as [|fuel IH]; intros n Hn.
  - change (2 ^ N.of_nat 0)%N with 1%N in Hn. assert (n = 0%N) as -> by lia. done.
  - cbn [decimal_fuel]. destruct (N.ltb_spec n 10) as [Hlt|Hge].
    + unfold digits_value; simpl. lia.
    + rewrite digits_value_snoc, IH.
      * pose proof (N.div_mod n 10 ltac:(lia)) as Hdm.
        remember (n / 10)%N as q eqn:Hq. remember (n mod 10)%N as m eqn:Hmod.
        clear Hq Hmod IH Hn. lia.
      * rewrite Nat2N.inj_succ, N.pow_succ_r' in Hn.
        apply N.Div0.div_lt_upper_bound. lia.
Qed.

(** [decimal n] denotes [n]: no digit is lost to the fuel. *)
Lemma decimal_value (n : N) : digits_value (decimal n) = n.
Proof.
  unfold decimal. apply decimal_fuel_value.
  rewrite Nat2N.inj_succ, N2Nat.id.
  destruct n as [|p]; [done|].
  apply N.log2_spec. lia.
Qed.

Lemma frac_digits_zero (fuel : nat) (den : N) : frac_digits fuel 0 den = [].
Proof. by destruct fuel. Qed.

Lemma frac_digits_fuel (fuel : nat) :
  forall (extra : nat) (num den : N) (j : nat),
    (num < den)%N -> j <= 2 * fuel -> (den | num * 2 ^ N.of_nat j)%N ->
    frac_digits (fuel + extra) num den = frac_digits fuel num den.
Proof.
  induction fuel as [|fuel IH]; intros extra num den j Hlt Hj Hdiv.
  - assert (j = 0) as -> by lia.
    change (2 ^ N.of_nat 0)%N with 1%N in Hdiv. rewrite N.mul_1_r in Hdiv.
    assert (num = 0%N) as ->.
    { destruct Hdiv as [k Hk]. destruct k; [lia|]. nia. }
    by rewrite !frac_digits_zero.
  - cbn [Nat.add frac_digits].
    destruct (num =? 0)%N; [done|]. f_equal.
    apply (IH extra _ den (j - 2)); [apply N.mod_lt; lia | lia |].
    apply N.Lcm0.mod_divide.
    rewrite N.Div0.mul_mod_idemp_l.
    apply N.Lcm0.mod_divide.
    destruct (decide (2 <= j)) as [Hj2|Hj2].
    + replace (num * 36 * 2 ^ N.of_nat (j - 2))%N with (9 * (num * 2 ^ N.of_nat j))%N.
      * by apply N.divide_mul_r.
      * replace j with (S (S (j - 2))) at 1 by lia.
        rewrite !Nat2N.inj_succ, !N.pow_succ_r'. lia.
    + replace (j - 2) with 0 by lia.
      change (2 ^ N.of_nat 0)%N with 1%N. rewrite N.mul_1_r.
      assert (j = 0 \/ j = 1) as [-> | ->] by lia.
      * change (2 ^ N.of_nat 0)%N with 1%N in Hdiv.
        replace (num * 36)%N with (36 * (num * 1))%N by lia.
        by apply N.divide_mul_r.
      * change (2 ^ N.of_nat 1)%N with 2%N in Hdiv.
        replace (num * 36)%N with (18 * (num * 2))%N by lia.
        by apply N.divide_mul_r.
Qed.

Lemma pow2_spec (k : nat) : Npos (pow2 k) = (2 ^ N.of_nat k)%N.
Proof.
  unfold pow2. induction k as [|k IH]; [done|].
  rewrite Nat2N.inj_succ, N.pow_succ_r', <- IH. done.
Qed.

(** The base-36 digits of a draw end by themselves, with a zero remainder:
    more fuel prints the same digits. *)
Lemma base36_digits_complete (r : U01) (extra : nat) :
  frac_digits (expo r + extra) (mant r) (Npos (pow2 (expo r))) = base36_digits r.
Proof.
  unfold base36_digits.
  apply (frac_digits_fuel (expo r) extra _ _ (expo r)).
  - pose proof (mant_lt r) as H. by apply N.ltb_lt in H.
  - lia.
  - rewrite pow2_spec. apply N.divide_mul_r, N.divide_refl.
Qed.

Lemma frac_digits_length (fuel : nat) :
  forall num den : N, length (frac_digits fuel num den) <= fuel.
Proof.
  induction fuel as [|fuel IH]; intros num den; cbn [frac_digits]; [done|].
  destruct (num =? 0)%N; cbn [length]; [lia|]. specialize (IH ((num * 36) mod den)%N den). lia.
Qed.

(** A draw that is a multiple of [2 ^ -10] has at most five base-36 digits
    after the point ([36 ^ 5 = 2 ^ 10 * 3 ^ 10]). *)
Lemma base36_digits_short (r : U01) :
  expo r <= 10 -> length (base36_digits r) <= 5.
Proof.
  intros He. unfold base36_digits.
  destruct (decide (expo r <= 5)) as [H5|H5].
  - pose proof (frac_digits_length (expo r) (mant r) (Npos (pow2 (expo r)))). lia.
  - replace (expo r) with (5 + (expo r - 5)) at 1 by lia.
    rewrite (frac_digits_fuel 5 (expo r - 5) _ _ (expo r)).
    + apply frac_digits_length.
    + pose proof (mant_lt r) as H. by apply N.ltb_lt in H.
    + lia.
    + rewrite pow2_spec. apply N.divide_mul_r, N.divide_refl.
Qed.

(** For such a draw the token of the name is the whole of its base-36
    expansion, upper-cased. *)
Lemma name_token_short (r : U01) :
  expo r <= 10 ->
  toUpperCase (substr (toString36 r) 2 5)
  = toUpperCase (map digit_char (base36_digits r)).
Proof.
  intros He. rewrite token_digits.
  rewrite take_ge; [done|]. rewrite length_map. by apply base36_digits_short.
Qed.

(** ** Testing in the basic variant *)

(** [simulateDrugTesting(drug)] completes normally on every drug and
    world: two percentages from two draws, and a new array with the first
    two elements of a permutation of the five possible effects. *)
Lemma simulateDrugTesting_spec (drug : Basic.Drug) (w : World) :
  exists (b : loc) (l' : list js_string) (w' : World),
    Basic.simulateDrugTesting drug w
    = (Normal (Basic.mkTestResult
                 (toFixed (U01_val (draws w (cursor w)) * 100)%Q 1)
                 (toFixed (U01_val (draws w (S (cursor w))) * 100)%Q 1)
                 b), w')
    /\ heap w' !! b = Some (take 2 l')
    /\ l' ≡ₚ Basic.possibleEffects
    /\ (forall a, is_Some (heap w !! a) -> heap w' !! a = heap w !! a)
    /\ log w' = log w.
Proof.
  set (a := fresh (dom (heap w))).
  set (w3 := mkWorld (<[a := Basic.possibleEffects]> (heap w)) (draws w)
               (S (S (cursor w))) (log w)).
  destruct (shuffleAndTake_spec a 2 w3 Basic.possibleEffects)
    as (b & l' & w' & Hrun & Hb & Hp & Hbnew & Hframe & _ & Hlog);
    [apply lookup_insert_eq|].
  exists b, l', w'. split; [|split; [done|split; [done|split; [|done]]]].
  - unfold Basic.simulateDrugTesting.
    do 3 (erewrite bind_Normal; [|reflexivity]).
    erewrite bind_Normal; [|apply Hrun]. done.
  - intros a' Ha'. rewrite Hframe.
    + unfold w3; simpl. apply lookup_insert_ne. intros <-.
      destruct Ha' as [x Hx]. unfold a in Hx. by rewrite fresh_loc_unused in Hx.
    + unfold w3; simpl. destruct (decide (a = a')) as [<-|Hne].
      * rewrite lookup_insert_eq. eauto.
      * by rewrite lookup_insert_ne.
Qed.

(** ** The input vector of the enhanced variant *)

Lemma encode_step_length (str : js_string) (codes : list Q) (i : nat) :
  length (Enhanced.encode_step str codes i) = length codes.
Proof.
  unfold Enhanced.encode_step. destruct (charCodeAt str i); [|done].
  apply length_insert.
Qed.

Lemma encode_loop_length (str : js_string) (k : nat) :
  forall (a : nat) (codes : list Q),
    length (fold_left (Enhanced.encode_step str) (seq a k) codes) = length codes.
Proof.
  induction k as [|k IH]; intros a codes; simpl; [done|].
  by rewrite IH, encode_step_length.
Qed.

Lemma encode_loop_lookup (str : js_string) (k : nat) :
  forall (a : nat) (codes : list Q) (i : nat),
    a + k <= length str -> a + k <= length codes ->
    fold_left (Enhanced.encode_step str) (seq a k) codes !! i
    = if decide (a <= i < a + k)
      then (fun c => (Z.of_N c # 255)%Q) <$> str !! i
      else codes !! i.
Proof.
  induction k as [|k IH]; intros a codes i Hstr Hcodes; simpl.
  - case_decide; [lia|done].
  - rewrite IH by (rewrite ?encode_step_length; lia).
    unfold Enhanced.encode_step, charCodeAt.
    destruct (lookup_lt_is_Some_2 str a ltac:(lia)) as [c Hc]. rewrite Hc.
    repeat case_decide; try lia; try done.
    + assert (i = a) as -> by lia.
      rewrite list_lookup_insert_eq by lia. by rewrite Hc.
    + rewrite list_lookup_insert_ne by lia. done.
Qed.

(** The vector has ten entries. *)
Lemma encodeMolecule_length (str : js_string) :
  length (Enhanced.encodeMolecule str) = 10.
Proof. unfold Enhanced.encodeMolecule. by rewrite encode_loop_length, length_replicate. Qed.

(** Entry [i] is the [i]-th code unit over 255 for the first ten units of
    the string, and zero from the end of the string on. *)
Lemma encodeMolecule_lookup (str : js_string) (i : nat) :
  i < 10 ->
  Enhanced.encodeMolecule str !! i
  = Some (match str !! i with Some c => (Z.of_N c # 255)%Q | None => 0%Q end).
Proof.
  intros Hi. unfold Enhanced.encodeMolecule, Enhanced.maxLen.
  rewrite encode_loop_lookup by (rewrite ?length_replicate; lia).
  case_decide as Hin.
  - destruct (lookup_lt_is_Some_2 str i ltac:(lia)) as [c Hc]. by rewrite Hc.
  - rewrite lookup_replicate_2 by lia.
    destruct (str !! i) as [c|] eqn:Hc; [|done].
    apply lookup_lt_Some in Hc. lia.
Qed.

(** Code units up to 255 are mapped into [[0,1]]. *)
Lemma encodeMolecule_latin1 (str : js_string) (i : nat) (x : Q) :
  Forall (fun c => (c <= 255)%N) str ->
  Enhanced.encodeMolecule str !! i = Some x -> (0 <= x)%Q /\ (x <= 1)%Q.
Proof.
  intros Hstr Hx.
  assert (Hi : i < 10).
  { apply lookup_lt_Some in Hx. by rewrite encodeMolecule_length in Hx. }
  rewrite encodeMolecule_lookup in Hx by done. injection Hx as <-.
  destruct (str !! i) as [c|] eqn:Hc.
  - rewrite Forall_lookup in Hstr. specialize (Hstr i c Hc).
    unfold Qle; simpl. lia.
  - unfold Qle; simpl. lia.
Qed.

(** ** The handlers of the enhanced variant *)

Lemma random_scores_spec (n : nat) :
  forall w : World,
    Enhanced.random_scores n w
    = (Normal (map (fun i => (U01_val (draws w (cursor w + i)) * 100)%Q) (seq 0 n)),
       mkWorld (heap w) (draws w) (cursor w + n) (log w)).
Proof.
  induction n as [|n IH]; intros [h d c lg]; simpl.
  - unfold mret, ST_ret. by rewrite Nat.add_0_r.
  - erewrite bind_Normal; [|reflexivity].
    erewrite bind_Normal; [|apply IH]. unfold mret, ST_ret; simpl.
    rewrite Nat.add_0_r. f_equal.
    + do 2 f_equal. rewrite <- seq_shift, map_map.
      apply map_ext. intros i. simpl. replace (S (c + i)) with (c + S i) by lia. done.
    + f_equal. lia.
Qed.

Lemma trainings_app (lg1 lg2 : list event) :
  trainings (lg1 ++ lg2) = trainings lg1 + trainings lg2.
Proof.
  induction lg1 as [|e lg1 IH]; [done|]. destruct e; simpl; by rewrite ?IH.
Qed.

Arguments Enhanced.encodeMolecule : simpl never.
Arguments toFixed : simpl never.

Ltac run_handler :=
  repeat (progress
    (unfold Enhanced.testBtn_click, Enhanced.createBtn_click,
       Enhanced.nextToTestBtn_click, Enhanced.showStep, Enhanced.the_drug,
       Enhanced.the_model, Enhanced.predict, Enhanced.renderBarChart,
       Enhanced.renderRadarChart, Enhanced.buildAndTrainModel, Array_length,
       contents, emit, lift, get_page, set_page, throw, mbind, ST_bind, mret,
       ST_ret; cbn)).

Section EnhancedHandlers.

Context {Model : Type}.
Variable tf_train : nat -> Model * nat.
Variable tf_predict : Model -> list Q -> Q * Q.

Local Abbreviation testBtn_click := (Enhanced.testBtn_click tf_train tf_predict).

(** A test action with a model and a Drug: one prediction, two charts. *)
Lemma testBtn_click_ready (p : Enhanced.Page Model) (w : World) (m : Model)
    (d : Enhanced.Drug) :
  Enhanced.model p = Some m -> Enhanced.currentDrug p = Some d ->
  let l := default [] (heap w !! Enhanced.sideEffects d) in
  let scores := map (fun i => (U01_val (draws w (cursor w + i)) * 100)%Q)
                  (seq 0 (length l)) in
  testBtn_click (p, w)
  = (Normal tt,
     (tested_page tf_predict p m d scores,
      mkWorld (heap w) (draws w) (cursor w + length l)
        (log w ++ [EvPredict (Enhanced.encodeMolecule (Enhanced.structure d))]))).
Proof.
  intros Hm Hd. destruct p as [cd md iv vs pl sh td bh rh bc rc], w as [h dr c lg].
  simpl in Hm, Hd. subst. unfold tested_page.
  run_handler. rewrite random_scores_spec. cbn. done.
Qed.

(** A test action with a model and no Drug: the spinner is shown, the
    button disabled, and reading [currentDrug.structure] throws. *)
Lemma testBtn_click_no_drug (p : Enhanced.Page Model) (w : World) (m : Model) :
  Enhanced.model p = Some m -> Enhanced.currentDrug p = None ->
  testBtn_click (p, w)
  = (Throw TypeError,
     (Enhanced.set_testBtn_disabled true (Enhanced.set_spinner_hidden false p), w)).
Proof.
  intros Hm Hd. destruct p as [cd md iv vs pl sh td bh rh bc rc], w as [h dr c lg].
  simpl in Hm, Hd. subst. by run_handler.
Qed.

(** A test action without a model first builds and trains one, then goes
    on as a test action with that model. *)
Lemma testBtn_click_unloaded (p : Enhanced.Page Model) (w : World) :
  Enhanced.model p = None ->
  testBtn_click (p, w)
  = testBtn_click
      (Enhanced.set_model (Some (fst (tf_train (cursor w)))) p,
       mkWorld (heap w) (draws w) (cursor w + snd (tf_train (cursor w)))
         (log w ++ [EvTrain])).
Proof.
  intros Hm. destruct p as [cd md iv vs pl sh td bh rh bc rc], w as [h dr c lg].
  simpl in Hm. subst. run_handler. by destruct (tf_train c).
Qed.

(** The create action of the enhanced variant never changes the page:
    either the input is blank and it alerts, or [simulateDrugCreation]
    throws before [currentDrug] is assigned. *)
Lemma enhanced_createBtn_click_page (p : Enhanced.Page Model) (w : World) :
  exists r h' c' lg',
    Enhanced.createBtn_click (p, w) = (r, (p, mkWorld h' (draws w) c' lg'))
    /\ trainings lg' = trainings (log w).
Proof.
  unfold Enhanced.createBtn_click.
  erewrite bind_Normal; [|reflexivity]. cbn [fst].
  destruct (falsy (trim (Enhanced.moleculeInput_value p))).
  - exists (Normal tt), (heap w), (cursor w), (log w ++ [EvAlert Enhanced.alert_text]).
    split; [done|]. rewrite trainings_app. simpl. lia.
  - destruct (enhanced_simulateDrugCreation_throws
                (trim (Enhanced.moleculeInput_value p)) w) as (h' & c' & Hthrow).
    exists (Throw TypeError), h', c', (log w). split; [|done].
    erewrite bind_Throw; [done|]. unfold lift; cbn [snd fst]. by rewrite Hthrow.
Qed.

Local Abbreviation step := (Enhanced.step tf_train tf_predict).
Local Abbreviation run := (Enhanced.run tf_train tf_predict).

Lemma model_tested_page (p : Enhanced.Page Model) (m : Model) (d : Enhanced.Drug)
    (scores : list Q) :
  Enhanced.model (tested_page tf_predict p m d scores) = Enhanced.model p.
Proof. by destruct p. Qed.

(** Once a model is loaded, every action keeps that very model and trains
    nothing. *)
Lemma step_keeps_model (s : Enhanced.Page Model * World) (a : Enhanced.action) (m : Model) :
  Enhanced.model (fst s) = Some m ->
  Enhanced.model (fst (step s a)) = Some m
  /\ trainings (log (snd (step s a))) = trainings (log (snd s)).
Proof.
  destruct s as [p w]. cbn [fst snd]. intros Hm.
  destruct a as [v| | |]; cbn [Enhanced.step fst snd].
  - by destruct p.
  - destruct (enhanced_createBtn_click_page p w) as (r & h' & c' & lg' & -> & Hlg).
    done.
  - by destruct p.
  - destruct (Enhanced.currentDrug p) as [d|] eqn:Hd.
    + rewrite (testBtn_click_ready p w m d Hm Hd). cbn [fst snd log].
      rewrite model_tested_page, trainings_app. simpl. split; [done|lia].
    + rewrite (testBtn_click_no_drug p w m Hm Hd). cbn [fst snd].
      split; [by destruct p|done].
Qed.

(** Without a model, an action other than a test action loads none. *)
Lemma step_stays_unloaded (s : Enhanced.Page Model * World) (a : Enhanced.action) :
  a <> Enhanced.ClickTest ->
  Enhanced.model (fst s) = None ->
  Enhanced.model (fst (step s a)) = None
  /\ trainings (log (snd (step s a))) = trainings (log (snd s)).
Proof.
  destruct s as [p w]. cbn [fst snd]. intros Ha Hm.
  destruct a as [v| | |]; cbn [Enhanced.step fst snd]; try done.
  - by destruct p.
  - destruct (enhanced_createBtn_click_page p w) as (r & h' & c' & lg' & -> & Hlg).
    done.
  - by destruct p.
Qed.

(** Without a model, a test action trains once and loads the model. *)
Lemma step_loads_model (s : Enhanced.Page Model * World) :
  Enhanced.model (fst s) = None ->
  Enhanced.model (fst (step s Enhanced.ClickTest))
  = Some (fst (tf_train (cursor (snd s))))
  /\ trainings (log (snd (step s Enhanced.ClickTest))) = S (trainings (log (snd s))).
Proof.
  destruct s as [p w]. cbn [fst snd]. intros Hm.
  cbn [Enhanced.step]. rewrite (testBtn_click_unloaded p w Hm).
  set (m := fst (tf_train (cursor w))).
  set (s1 := (Enhanced.set_model (Some m) p, _)).
  assert (Hm1 : Enhanced.model (fst s1) = Some m) by by destruct p.
  destruct (step_keeps_model s1 Enhanced.ClickTest m Hm1) as [Hmodel Htr].
  cbn [Enhanced.step] in Hmodel, Htr.
  split; [done|]. rewrite Htr. unfold s1; cbn [snd log].
  rewrite trainings_app. simpl. lia.
Qed.

Lemma run_keeps_model (acts : list Enhanced.action) :
  forall (s : Enhanced.Page Model * World) (m : Model),
    Enhanced.model (fst s) = Some m ->
    Enhanced.model (fst (run s acts)) = Some m
    /\ trainings (log (snd (run s acts))) = trainings (log (snd s)).
Proof.
  induction acts as [|a acts IH]; intros s m Hm; [done|].
  destruct (step_keeps_model s a m Hm) as [Hm' Htr].
  destruct (IH (step s a) m Hm') as [Hm'' Htr'].
  cbn [Enhanced.run fold_left]. split; [done|]. by rewrite <- Htr.
Qed.

Lemma run_stays_unloaded (acts : list Enhanced.action) :
  forall s : Enhanced.Page Model * World,
    Forall (fun a => a <> Enhanced.ClickTest) acts ->
    Enhanced.model (fst s) = None ->
    Enhanced.model (fst (run s acts)) = None
    /\ trainings (log (snd (run s acts))) = trainings (log (snd s)).
Proof.
  induction acts as [|a acts IH]; intros s Hnotin Hm; [done|].
  apply Forall_cons in Hnotin as [Hne Hnotin].
  destruct (step_stays_unloaded s a Hne Hm) as [Hm' Htr].
  destruct (IH (step s a) Hnotin Hm') as [Hm'' Htr'].
  cbn [Enhanced.run fold_left]. split; [done|]. by rewrite <- Htr.
Qed.

(** No session of the enhanced variant ever holds a Drug: the create action
    is the only one that assigns [currentDrug], and it never gets to. *)
Lemma enhanced_session_never_has_drug (acts : list Enhanced.action) :
  forall s : Enhanced.Page Model * World,
    Enhanced.currentDrug (fst s) = None ->
    Enhanced.currentDrug (fst (run s acts)) = None.
Proof.
  induction acts as [|a acts IH]; intros [p w] Hd; [done|].
  cbn [Enhanced.run fold_left]. apply IH. cbn [fst] in Hd.
  destruct a as [v| | |]; cbn [Enhanced.step fst snd].
  - by destruct p.
  - destruct (enhanced_createBtn_click_page p w) as (r & h' & c' & lg' & -> & _).
    done.
  - by destruct p.
  - destruct (Enhanced.model p) as [m|] eqn:Hm.
    + rewrite (testBtn_click_no_drug p w m Hm Hd). by destruct p.
    + rewrite (testBtn_click_unloaded p w Hm).
      erewrite testBtn_click_no_drug; by destruct p.
Qed.


End EnhancedHandlers.

(** ** The handlers of the basic variant *)

(** A test action before any Drug exists does nothing at all. *)
Lemma basic_testBtn_click_no_drug (p : Basic.Page) (w : World) :
  Basic.currentDrug p = None -> Basic.testBtn_click (p, w) = (Normal tt, (p, w)).
Proof.
  intros Hd. unfold Basic.testBtn_click.
  erewrite bind_Normal; [|reflexivity]. cbn [fst]. by rewrite Hd.
Qed.

(** A blank input: the create action shows the warning and changes nothing
    else. *)
Lemma basic_createBtn_click_blank (p : Basic.Page) (w : World) :
  Forall (fun c => is_white_space c = true) (Basic.moleculeInput_value p) ->
  Basic.createBtn_click (p, w)
  = (Normal tt, (Basic.set_textContent Basic.warning p, w)).
Proof.
  intros Hblank. unfold Basic.createBtn_click.
  erewrite bind_Normal; [|reflexivity]. cbn [fst].
  by rewrite (trim_blank _ Hblank).
Qed.

(** A non-blank input: the create action stores the Drug made from the
    trimmed input, shows it and enables the test button. *)
Lemma basic_createBtn_click_creates (p : Basic.Page) (w : World) :
  trim (Basic.moleculeInput_value p) <> [] ->
  exists d,
    Basic.simulateDrugCreation (trim (Basic.moleculeInput_value p)) w
    = (Normal d, mkWorld (heap w) (draws w) (S (cursor w)) (log w))
    /\ Basic.createBtn_click (p, w)
       = (Normal tt,
          (Basic.mkPage (Some d) (Basic.moleculeInput_value p)
             ([55358%N; 56810%N] ++ lit " Generated Drug:" ++ Basic.nl
              ++ lit "Name: " ++ Basic.name d ++ Basic.nl
              ++ lit "Structure: " ++ Basic.structure d ++ Basic.nl
              ++ lit "Description: " ++ Basic.description d)
             false,
           mkWorld (heap w) (draws w) (S (cursor w)) (log w))).
Proof.
  intros Hne. rewrite basic_simulateDrugCreation_eq.
  eexists. split; [reflexivity|].
  unfold Basic.createBtn_click.
  erewrite bind_Normal; [|reflexivity]. cbn [fst].
  destruct (trim (Basic.moleculeInput_value p)) as [|c input] eqn:Htrim; [done|].
  cbn [falsy].
  erewrite bind_Normal;
    [|unfold lift; cbn [snd fst]; rewrite basic_simulateDrugCreation_eq; reflexivity].
  reflexivity.
Qed.

(** In the basic variant the structure of the Drug is the input reversed
    with ["-mol"] appended, for every input. *)
Lemma basic_structure_reversed (input : js_string) (w : World) :
  exists d w',
    Basic.simulateDrugCreation input w = (Normal d, w')
    /\ Basic.structure d = rev input ++ lit "-mol"
    /\ length (Basic.structure d) = length input + length (lit "-mol").
Proof.
  rewrite basic_simulateDrugCreation_eq. eexists _, _. split; [done|]. simpl.
  split; [done|]. by rewrite length_app, length_rev.
Qed.

(** * The claims *)

(** ** C1 *)

(** C1, as stated, fails on its own example: in the basic variant the
    structure for input ["caffeine"] is ["enieffac-mol"], the code units of
    ["caffeine"] in reverse order, and not ["eniaffac-mol"]. *)
Lemma caffeine_structure_not_eniaffac :
  exists d w',
    Basic.simulateDrugCreation (lit "caffeine") (world_of ∅ zero_draw) = (Normal d, w')
    /\ Basic.structure d = lit "enieffac-mol"
    /\ Basic.structure d <> lit "eniaffac-mol".
Proof.
  rewrite basic_simulateDrugCreation_eq. eexists _, _.
  split; [reflexivity|]. split; [vm_compute; reflexivity|].
  vm_compute. discriminate.
Qed.

(** C1, amended.  In the basic variant, for every input string the Drug
    returned by [simulateDrugCreation] has as structure the input with its
    code units in reverse order followed by ["-mol"], of length the length
    of the input plus four; input ["caffeine"] yields ["enieffac-mol"]. *)
Theorem createDrug_structure (input : js_string) (w : World) :
  (exists d w',
      Basic.simulateDrugCreation input w = (Normal d, w')
      /\ Basic.structure d = rev input ++ lit "-mol"
      /\ length (Basic.structure d) = length input + length (lit "-mol"))
  /\ (exists d w',
         Basic.simulateDrugCreation (lit "caffeine") w = (Normal d, w')
         /\ Basic.structure d = lit "enieffac-mol").
Proof.
  split; [apply basic_structure_reversed|].
  rewrite basic_simulateDrugCreation_eq. eexists _, _. split; [reflexivity|].
  vm_compute. reflexivity.
Qed.

(** ** C2 *)

(** C2.  A test action on the freshly loaded page of the enhanced variant,
    before any create action: the handler has no guard on [currentDrug]; it
    shows the spinner, disables the button, builds and trains the model and
    stores it, and then throws on [currentDrug.structure]. *)
Theorem enhanced_test_before_create
    (Model : Type) (tf_train : nat -> Model * nat)
    (tf_predict : Model -> list Q -> Q * Q) (w : World) :
  Enhanced.testBtn_click tf_train tf_predict (Enhanced.initial_page, w)
  = (Throw TypeError,
     (Enhanced.mkPage None (Some (fst (tf_train (cursor w)))) [] 0 [] false true true true
        None None,
      mkWorld (heap w) (draws w) (cursor w + snd (tf_train (cursor w)))
        (log w ++ [EvTrain]))).
Proof.
  rewrite testBtn_click_unloaded by done.
  by erewrite testBtn_click_no_drug.
Qed.

(** ** C3 *)

(** C3, as stated, fails: in the basic variant [shuffleAndTake] of a
    one-element array with [n = 2] completes normally and returns that one
    element; and of an array that holds the same effect twice it returns
    two equal elements. *)
Lemma shuffleAndTake_no_InvalidArgument :
  (exists b w',
      Basic.shuffleAndTake 1%positive 2 (world_of {[1%positive := [lit "Nausea"]]} zero_draw)
      = (Normal b, w')
      /\ heap w' !! b = Some [lit "Nausea"])
  /\ (exists b w',
         Basic.shuffleAndTake 1%positive 2
           (world_of {[1%positive := [lit "Nausea"; lit "Nausea"]]} zero_draw)
         = (Normal b, w')
         /\ heap w' !! b = Some [lit "Nausea"; lit "Nausea"]
         /\ ~ NoDup [lit "Nausea"; lit "Nausea"]).
Proof.
  split.
  - eexists _, _. split; [vm_compute; reflexivity|]. vm_compute. reflexivity.
  - eexists _, _. split; [vm_compute; reflexivity|]. split; [vm_compute; reflexivity|].
    intros Hnd. apply NoDup_cons in Hnd as [Hnotin _]. apply Hnotin. by left.
Qed.

(** C3, amended.  In the basic variant [shuffleAndTake(items, n)] completes
    normally for every [n] and returns a new array of [min n (length items)]
    elements, the first [n] of a permutation of [items]: each is a member of
    [items], they are pairwise distinct when the elements of [items] are,
    there are exactly [n] of them when [n <= length items], and all of
    [items] when [n] is larger.  The array is new: its location [b] was not
    allocated before the call and is not [items]; the caller's array, and
    every other array that existed before the call, holds after it what it
    held before. *)
Theorem shuffleAndTake_basic (items : loc) (n : nat) (w : World) (l : list js_string) :
  heap w !! items = Some l ->
  exists (b : loc) (r : list js_string) (w' : World),
    Basic.shuffleAndTake items n w = (Normal b, w')
    /\ heap w' !! b = Some r
    /\ length r = Nat.min n (length l)
    /\ r ⊆+ l
    /\ (forall x, x ∈ r -> x ∈ l)
    /\ (NoDup l -> NoDup r)
    /\ (n <= length l -> length r = n)
    /\ (length l <= n -> r ≡ₚ l)
    /\ heap w !! b = None
    /\ b <> items
    /\ heap w' !! items = Some l
    /\ (forall a, is_Some (heap w !! a) -> heap w' !! a = heap w !! a).
Proof.
  intros Hl.
  destruct (shuffleAndTake_spec items n w l Hl)
    as (b & l' & w' & Hrun & Hb & Hp & Hnew & Hframe & _).
  assert (Hsub : take n l' ⊆+ l).
  { rewrite <- Hp. apply sublist_submseteq, sublist_take. }
  assert (Hlen : length (take n l') = Nat.min n (length l)).
  { by rewrite length_take, (Permutation_length Hp). }
  exists b, (take n l'), w'.
  split; [exact Hrun|]. split; [exact Hb|]. split; [exact Hlen|].
  split; [exact Hsub|].
  split; [intros x Hx; by eapply elem_of_submseteq|].
  split; [intros Hnd; eapply sublist_NoDup; [|apply sublist_take]; by rewrite Hp|].
  split; [intros Hn; lia|].
  split.
  { intros Hn. rewrite take_ge by (rewrite (Permutation_length Hp); lia). done. }
  split; [exact Hnew|].
  split; [intros ->; congruence|].
  split; [rewrite Hframe; [done|eauto]|].
  exact Hframe.
Qed.

(** An instance: two of the five possible effects, every draw 0.5. *)
Lemma shuffleAndTake_basic_witness :
  heap (world_of {[1%positive := Basic.possibleEffects]} half_draw) !! 1%positive
  = Some Basic.possibleEffects
  /\ exists (b : loc) (r : list js_string) (w' : World),
       Basic.shuffleAndTake 1%positive 2
         (world_of {[1%positive := Basic.possibleEffects]} half_draw) = (Normal b, w')
       /\ heap w' !! b = Some r
       /\ length r = Nat.min 2 (length Basic.possibleEffects)
       /\ r ⊆+ Basic.possibleEffects
       /\ (forall x, x ∈ r -> x ∈ Basic.possibleEffects)
       /\ (NoDup Basic.possibleEffects -> NoDup r)
       /\ (2 <= length Basic.possibleEffects -> length r = 2)
       /\ (length Basic.possibleEffects <= 2 -> r ≡ₚ Basic.possibleEffects)
       /\ heap (world_of {[1%positive := Basic.possibleEffects]} half_draw) !! b = None
       /\ b <> 1%positive
       /\ heap w' !! 1%positive = Some Basic.possibleEffects
       /\ (forall a,
             is_Some (heap (world_of {[1%positive := Basic.possibleEffects]} half_draw) !! a) ->
             heap w' !! a
             = heap (world_of {[1%positive := Basic.possibleEffects]} half_draw) !! a).
Proof.
  split; [reflexivity|].
  apply (shuffleAndTake_basic 1%positive 2
           (world_of {[1%positive := Basic.possibleEffects]} half_draw)
           Basic.possibleEffects).
  reflexivity.
Defined.

(** ** C4 *)

(** The basic variant does shuffle a copy: after [shuffleAndTake] the
    caller's array holds the same elements in the same order. *)
Lemma basic_shuffle_frame (items : loc) (n : nat) (w : World) (l : list js_string) :
  heap w !! items = Some l ->
  exists b w',
    Basic.shuffleAndTake items n w = (Normal b, w') /\ heap w' !! items = Some l.
Proof.
  intros Hl.
  destruct (shuffleAndTake_spec items n w l Hl)
    as (b & l' & w' & Hrun & _ & _ & _ & Hframe & _).
  exists b, w'. split; [done|]. rewrite Hframe; [done|eauto].
Qed.

(** C4.  [pickRandom] of the enhanced variant on the array of the six side
    effects, with every draw 0: the array it was given is permuted in
    place (["Nausea"] moves from the front to the back), and the call
    throws. *)
Theorem pickRandom_mutates_argument :
  exists w',
    Enhanced.pickRandom 1%positive 3 (world_of {[1%positive := Enhanced.vocabulary]} zero_draw)
    = (Throw TypeError, w')
    /\ heap (world_of {[1%positive := Enhanced.vocabulary]} zero_draw) !! 1%positive
       = Some [lit "Nausea"; lit "Headache"; lit "Dizziness"; lit "Fatigue";
               lit "Dry mouth"; lit "Insomnia"]
    /\ heap w' !! 1%positive
       = Some [lit "Headache"; lit "Dizziness"; lit "Fatigue"; lit "Dry mouth";
               lit "Insomnia"; lit "Nausea"].
Proof.
  eexists. split; [vm_compute; reflexivity|]. split; vm_compute; reflexivity.
Qed.

(** ** C5 *)

(** C5, as stated, fails: when the draw is 0.5, whose base-36 rendering is
    ["0.i"], the name is ["FX-I"], one character after the prefix. *)
Lemma name_too_short :
  exists d w',
    Basic.simulateDrugCreation (lit "caffeine") (world_of ∅ half_draw) = (Normal d, w')
    /\ Basic.name d = lit "FX-I"
    /\ name_pattern (Basic.name d) = false.
Proof.
  rewrite basic_simulateDrugCreation_eq. eexists _, _.
  split; [reflexivity|]. split; vm_compute; reflexivity.
Qed.

(** C5, amended.  In the basic variant, for every input the name of the
    Drug returned is ["FX-"] followed by at most five characters, each of
    [0-9A-Z].  When the draw is a multiple of [2 ^ -10] they are exactly
    the base-36 digits of the draw after the point, upper-cased, all of
    them; there are at most five.  So the draw 0.5 gives ["FX-I"] and the
    draw 0 gives ["FX-"]. *)
Theorem createDrug_name (input : js_string) (w : World) :
  exists d w' t,
    Basic.simulateDrugCreation input w = (Normal d, w')
    /\ Basic.name d = lit "FX-" ++ t
    /\ length t <= 5
    /\ Forall (fun c => is_upper_base36 c = true) t
    /\ (expo (draws w (cursor w)) <= 10 ->
        t = toUpperCase (map digit_char (base36_digits (draws w (cursor w))))
        /\ length (base36_digits (draws w (cursor w))) <= 5)
    /\ (draws w (cursor w) = half_draw -> t = lit "I")
    /\ (draws w (cursor w) = zero_draw -> t = []).
Proof.
  rewrite basic_simulateDrugCreation_eq.
  destruct (name_token_digits (draws w (cursor w))) as [Hlen Hchars].
  eexists _, _, _. split; [reflexivity|]. split; [reflexivity|].
  split; [exact Hlen|]. split; [exact Hchars|].
  split; [|split].
  - intros He. split; [by apply name_token_short | by apply base36_digits_short].
  - intros ->. vm_compute. reflexivity.
  - intros ->. vm_compute. reflexivity.
Qed.

(** ** C6 *)

(** C6.  In a session of the enhanced variant that starts without a model:
    up to the first test action there is no model and nothing is trained;
    the first test action trains once and stores the model; after any
    further actions, test actions among them, the stored model is the same
    and the number of trainings is still one. *)
Theorem model_trained_once
    (Model : Type) (tf_train : nat -> Model * nat)
    (tf_predict : Model -> list Q -> Q * Q)
    (p : Enhanced.Page Model) (w : World) (before after : list Enhanced.action) :
  Enhanced.model p = None ->
  Forall (fun a => a <> Enhanced.ClickTest) before ->
  let s0 := Enhanced.run tf_train tf_predict (p, w) before in
  let s1 := Enhanced.step tf_train tf_predict s0 Enhanced.ClickTest in
  let s2 := Enhanced.run tf_train tf_predict s1 after in
  (Enhanced.model (fst s0) = None /\ trainings (log (snd s0)) = trainings (log w))
  /\ (Enhanced.model (fst s1) = Some (fst (tf_train (cursor (snd s0))))
      /\ trainings (log (snd s1)) = S (trainings (log w)))
  /\ (Enhanced.model (fst s2) = Enhanced.model (fst s1)
      /\ trainings (log (snd s2)) = S (trainings (log w))).
Proof.
  intros Hm Hbefore s0 s1 s2.
  destruct (run_stays_unloaded tf_train tf_predict before (p, w) Hbefore Hm) as [Hm0 Htr0].
  fold s0 in Hm0, Htr0. cbn [snd] in Htr0.
  destruct (step_loads_model tf_train tf_predict s0 Hm0) as [Hm1 Htr1].
  fold s1 in Hm1, Htr1.
  destruct (run_keeps_model tf_train tf_predict after s1 _ Hm1) as [Hm2 Htr2].
  fold s2 in Hm2, Htr2.
  repeat split; try done; congruence.
Qed.

(** An instance: a create action on input ["caffeine"] and a click on
    [nextToTestBtn], then three test actions, with the example library. *)
Lemma model_trained_once_witness :
  let p : Enhanced.Page nat := Enhanced.initial_page in
  let w := world_of ∅ half_draw in
  let before := [Enhanced.TypeInput (lit "caffeine"); Enhanced.ClickCreate; Enhanced.ClickNext] in
  let after := [Enhanced.ClickTest; Enhanced.ClickNext; Enhanced.ClickTest] in
  Enhanced.model p = None
  /\ Forall (fun a => a <> Enhanced.ClickTest) before
  /\ let s0 := Enhanced.run toy_train toy_predict (p, w) before in
     let s1 := Enhanced.step toy_train toy_predict s0 Enhanced.ClickTest in
     let s2 := Enhanced.run toy_train toy_predict s1 after in
     (Enhanced.model (fst s0) = None /\ trainings (log (snd s0)) = trainings (log w))
     /\ (Enhanced.model (fst s1) = Some (fst (toy_train (cursor (snd s0))))
         /\ trainings (log (snd s1)) = S (trainings (log w)))
     /\ (Enhanced.model (fst s2) = Enhanced.model (fst s1)
         /\ trainings (log (snd s2)) = S (trainings (log w))).
Proof.
  intros p w before after.
  assert (Hm : Enhanced.model p = None) by reflexivity.
  assert (Hb : Forall (fun a => a <> Enhanced.ClickTest) before)
    by (repeat constructor; discriminate).
  split; [exact Hm|]. split; [exact Hb|].
  exact (model_trained_once nat toy_train toy_predict p w before after Hm Hb).
Defined.

(** ** C7 *)

(** C7.  [encodeMolecule] on the structure for input [Ω] (code unit 937),
    the string [Ω-MOL]: ten entries, zero from the sixth on, but the first
    entry is 937/255, which is above 1. *)
Theorem encodeMolecule_above_one :
  Enhanced.encodeMolecule (937%N :: lit "-MOL")
  = [(937 # 255)%Q; (45 # 255)%Q; (77 # 255)%Q; (79 # 255)%Q; (76 # 255)%Q;
     0%Q; 0%Q; 0%Q; 0%Q; 0%Q]
  /\ (1 < 937 # 255)%Q.
Proof. split; [vm_compute; reflexivity|reflexivity]. Qed.

(** ** C8 *)

(** C8.  A test action yields efficacy and toxicity as decimal strings with
    one decimal place and a value in [[0,100]]: in the basic variant for
    every drug and world; in the enhanced variant for every page that holds
    a Drug, as the two values given to the bar chart, when the outputs of
    the model are in [[0,1]]. *)
Theorem test_results_are_percentages
    (Model : Type) (tf_train : nat -> Model * nat)
    (tf_predict : Model -> list Q -> Q * Q)
    (drug : Basic.Drug) (p : Enhanced.Page Model) (d : Enhanced.Drug) (w : World) :
  (forall m t, ((0 <= fst (tf_predict m t))%Q /\ (fst (tf_predict m t) <= 1)%Q)
               /\ ((0 <= snd (tf_predict m t))%Q /\ (snd (tf_predict m t) <= 1)%Q)) ->
  Enhanced.currentDrug p = Some d ->
  (exists tr w',
      Basic.simulateDrugTesting drug w = (Normal tr, w')
      /\ percent1 (Basic.efficacy tr) = true
      /\ percent1 (Basic.toxicity tr) = true)
  /\ (exists p' w' e t,
         Enhanced.testBtn_click tf_train tf_predict (p, w) = (Normal tt, (p', w'))
         /\ Enhanced.barChart p' = Some (e, t)
         /\ percent1 e = true
         /\ percent1 t = true).
Proof.
  intros Hrange Hd. split.
  - destruct (simulateDrugTesting_spec drug w) as (b & l' & w' & Hrun & _).
    eexists _, _. split; [exact Hrun|]. cbn [Basic.efficacy Basic.toxicity].
    split; apply toFixed_percent; apply random_percent.
  - assert (Hready : forall (p0 : Enhanced.Page Model) (w0 : World) (m : Model),
               Enhanced.model p0 = Some m -> Enhanced.currentDrug p0 = Some d ->
               exists p' w' e t,
                 Enhanced.testBtn_click tf_train tf_predict (p0, w0) = (Normal tt, (p', w'))
                 /\ Enhanced.barChart p' = Some (e, t)
                 /\ percent1 e = true /\ percent1 t = true).
    { intros p0 w0 m Hm0 Hd0.
      rewrite (testBtn_click_ready tf_train tf_predict p0 w0 m d Hm0 Hd0).
      eexists _, _, _, _. split; [reflexivity|].
      split; [by destruct p0|].
      destruct (Hrange m (Enhanced.encodeMolecule (Enhanced.structure d)))
        as [[He0 He1] [Ht0 Ht1]].
      split; apply toFixed_percent; lra. }
    destruct (Enhanced.model p) as [m|] eqn:Hm.
    + by apply (Hready p w m).
    + rewrite (testBtn_click_unloaded tf_train tf_predict p w Hm).
      eapply Hready; by destruct p.
Qed.

(** An instance: a test action on a page that holds a Drug, with the
    example library, whose outputs are 0.5 and 0.25. *)
Lemma test_results_are_percentages_witness :
  let drug := Basic.mkDrug (lit "FX-I") (lit "enieffac-mol") [] in
  let p : Enhanced.Page nat :=
    Enhanced.set_currentDrug (Some caffeine_drug) Enhanced.initial_page in
  let w := world_of {[1%positive := three_effects]} half_draw in
  (forall m t, ((0 <= fst (toy_predict m t))%Q /\ (fst (toy_predict m t) <= 1)%Q)
               /\ ((0 <= snd (toy_predict m t))%Q /\ (snd (toy_predict m t) <= 1)%Q))
  /\ Enhanced.currentDrug p = Some caffeine_drug
  /\ (exists tr w',
         Basic.simulateDrugTesting drug w = (Normal tr, w')
         /\ percent1 (Basic.efficacy tr) = true
         /\ percent1 (Basic.toxicity tr) = true)
  /\ (exists p' w' e t,
         Enhanced.testBtn_click toy_train toy_predict (p, w) = (Normal tt, (p', w'))
         /\ Enhanced.barChart p' = Some (e, t)
         /\ percent1 e = true
         /\ percent1 t = true).
Proof.
  intros drug p w.
  assert (Hrange : forall (m : nat) (t : list Q),
             ((0 <= fst (toy_predict m t))%Q /\ (fst (toy_predict m t) <= 1)%Q)
             /\ ((0 <= snd (toy_predict m t))%Q /\ (snd (toy_predict m t) <= 1)%Q)).
  { intros m t. unfold toy_predict, Qle; simpl. lia. }
  assert (Hd : Enhanced.currentDrug p = Some caffeine_drug) by reflexivity.
  split; [exact Hrange|]. split; [exact Hd|].
  exact (test_results_are_percentages nat toy_train toy_predict drug p caffeine_drug w
           Hrange Hd).
Defined.

(** ** C9 *)



(** ** C10 *)

(** C10.  [simulateDrugCreation] on every input string, the empty one
    included: the basic variant returns a Drug (for the empty string its
    structure is the suffix alone); the enhanced variant returns none, it
    throws a [TypeError] in [pickRandom]. *)
Theorem simulateDrugCreation_returns (input : js_string) (w : World) :
  (exists d w', Basic.simulateDrugCreation input w = (Normal d, w'))
  /\ (exists d w',
         Basic.simulateDrugCreation [] w = (Normal d, w')
         /\ Basic.structure d = lit "-mol")
  /\ (exists w', Enhanced.simulateDrugCreation input w = (Throw TypeError, w')).
Proof.
  split; [|split].
  - rewrite basic_simulateDrugCreation_eq. by eexists _, _.
  - rewrite basic_simulateDrugCreation_eq. by eexists _, _.
  - destruct (enhanced_simulateDrugCreation_throws input w) as (h' & c' & H). eauto.
Qed.

(** * Further properties of the code *)

(** ** [shuffleArray] *)

Lemma pow2_Z (k : nat) : Z.pos (pow2 k) = (2 ^ Z.of_nat k)%Z.
Proof.
  pose proof (pow2_spec k) as H.
  apply (f_equal Z.of_N) in H. rewrite N2Z.inj_pow, nat_N_Z in H. exact H.
Qed.

(** For every index below [n] there is a draw that [Math.floor(r * n)]
    maps to it.  For [n] up to [2 ^ 26] a multiple of [2 ^ -26] does: it is
    a double, and its product with [n] is below [2 ^ 52] when counted in
    units of [2 ^ -26], so the machine computes it exactly. *)
Lemma draw_for (n j : nat) :
  j < n -> (Z.of_nat n <= 2 ^ 26)%Z ->
  exists r : U01,
    expo r = 26 /\ Qfloor (U01_val r * inject_Z (Z.of_nat n)) = Z.of_nat j.
Proof.
  intros Hj Hn.
  set (D := Z.pos (pow2 26)).
  assert (HD : (Z.of_nat n <= D)%Z) by exact Hn.
  assert (HD0 : (0 < D)%Z) by done.
  set (m := ((Z.of_nat j * D + Z.of_nat n - 1) / Z.of_nat n)%Z).
  assert (Hlo : (Z.of_nat n * m <= Z.of_nat j * D + Z.of_nat n - 1)%Z)
    by (apply Z.mul_div_le; lia).
  assert (Hhi : (Z.of_nat j * D + Z.of_nat n - 1 < Z.of_nat n * Z.succ m)%Z)
    by (apply Z.mul_succ_div_gt; lia).
  assert (Hm0 : (0 <= m)%Z) by (apply Z.div_pos; nia).
  assert (HmD : (m < D)%Z) by nia.
  assert (Hlt : (Z.to_N m <? Npos (pow2 26))%N = true).
  { apply N.ltb_lt. unfold D in HmD. lia. }
  exists (mkU01 (Z.to_N m) 26 Hlt). split; [reflexivity|].
  rewrite Qfloor_scaled. cbn [mant expo]. rewrite Z2N.id by done. fold D.
  symmetry. apply (Z.div_unique _ _ _ (m * Z.of_nat n - D * Z.of_nat j)); nia.
Qed.

Lemma Permutation_same_tail {A} (n : nat) (l k : list A) :
  l ≡ₚ k -> drop n l = drop n k -> take n l ≡ₚ take n k.
Proof.
  intros Hp Hd. apply (Permutation_app_inv_r (drop n l)).
  rewrite take_drop, Hd, take_drop. done.
Qed.

Lemma Permutation_same_tail_1 {A} (l k : list A) :
  l ≡ₚ k -> drop 1 l = drop 1 k -> l = k.
Proof.
  intros Hp Hd. pose proof (Permutation_same_tail 1 l k Hp Hd) as Ht.
  destruct l as [|x l], k as [|y k]; simpl in *; try done.
  - by apply Permutation_nil_cons in Hp.
  - symmetry in Hp. by apply Permutation_nil_cons in Hp.
  - rewrite !take_0 in Ht. apply Permutation_singleton_inj in Ht.
    rewrite !drop_0 in Hd. congruence.
Qed.

(** The loop can leave any arrangement of the elements it may still move:
    finitely many draws, one per round and each a multiple of [2 ^ -26],
    lead to it. *)
Lemma shuffle_loop_reaches (array : loc) (i : nat) :
  forall l target : list js_string,
    i <= pred (length l) -> (Z.of_nat (length l) <= 2 ^ 26)%Z ->
    target ≡ₚ l -> drop (S i) target = drop (S i) l ->
    exists rs : list U01,
      length rs = i
      /\ Forall (fun r => expo r = 26) rs
      /\ forall h d c lg,
           h !! array = Some l ->
           (forall k r, rs !! k = Some r -> d (c + k) = r) ->
           Basic.shuffle_loop array i (mkWorld h d c lg)
           = (Normal tt, mkWorld (<[array := target]> h) d (c + i) lg).
Proof.
  induction i as [|i IH]; intros l target Hi Hbig Hp Hd.
  - exists []. split; [done|]. split; [constructor|]. intros h d c lg Hl _.
    rewrite (Permutation_same_tail_1 target l Hp Hd).
    simpl. unfold mret, ST_ret. by rewrite insert_id, Nat.add_0_r.
  - pose proof (Permutation_length Hp) as Hlen.
    destruct (lookup_lt_is_Some_2 target (S i) ltac:(lia)) as [x Hx].
    destruct (lookup_lt_is_Some_2 l (S i) ltac:(lia)) as [y Hy].
    assert (Hin : x ∈ take (S (S i)) l).
    { rewrite <- (Permutation_same_tail (S (S i)) target l Hp Hd).
      apply list_elem_of_lookup. exists (S i). rewrite lookup_take_lt by lia. done. }
    apply list_elem_of_lookup in Hin as [j Hj].
    apply lookup_take_Some in Hj as [Hj Hjlt].
    set (l1 := <[j := y]> (<[S i := x]> l)).
    assert (Hsw : swap l (S i) j = Some l1) by (unfold swap; by rewrite Hy, Hj).
    destruct (swap_Some l (S i) j ltac:(lia) ltac:(lia)) as (l1' & Hsw' & Hp1 & Hlen1).
    rewrite Hsw in Hsw'. injection Hsw' as <-.
    assert (Hd1 : drop (S i) target = drop (S i) l1).
    { apply list_eq. intros k. rewrite !lookup_drop. unfold l1.
      destruct k as [|k].
      - rewrite Nat.add_0_r, Hx.
        destruct (decide (j = S i)) as [->|Hne].
        + rewrite list_lookup_insert_eq by (rewrite length_insert; lia). congruence.
        + rewrite list_lookup_insert_ne by done.
          rewrite list_lookup_insert_eq by lia. done.
      - rewrite !list_lookup_insert_ne by lia.
        pose proof (f_equal (fun s => s !! k) Hd) as Hk. simpl in Hk.
        rewrite !lookup_drop in Hk.
        replace (S i + S k) with (S (S i) + k) by lia. done. }
    destruct (IH l1 target ltac:(lia) ltac:(lia) ltac:(by etrans) Hd1)
      as (rs' & Hrs' & Hw' & Hrun).
    destruct (draw_for (S i + 1) j ltac:(lia) ltac:(lia)) as (r & Hw & Hr).
    exists (r :: rs'). split; [simpl; lia|]. split; [by constructor|].
    intros h d c lg Hl Hdraws.
    assert (Hdc : d c = r).
    { rewrite <- (Nat.add_0_r c). by apply Hdraws. }
    cbn [Basic.shuffle_loop].
    erewrite bind_Normal; [|reflexivity].
    erewrite bind_Normal.
    2:{ cbn [draws cursor]. rewrite Hdc, Hr, Nat2Z.id.
        unfold swap_at, contents, mbind, ST_bind. cbn [heap].
        rewrite Hl. cbn [default]. change (id l) with l. rewrite Hsw. reflexivity. }
    unfold store. cbn [heap draws cursor log].
    rewrite (Hrun (<[array := l1]> h) d (S c) lg).
    + rewrite insert_insert_eq. do 2 f_equal. lia.
    + apply lookup_insert_eq.
    + intros k r' Hk. replace (S c + k) with (c + S k) by lia. by apply Hdraws.
Qed.

(** X1.  [shuffleArray(arr)] completes on every array: it returns a new
    array, unused before, that holds a permutation of the elements of
    [arr]; it writes to no other array, takes one draw per element but the
    first, and calls no collaborator. *)
Theorem shuffleArray_permutes (arr : loc) (w : World) (l : list js_string) :
  heap w !! arr = Some l ->
  exists (array : loc) (l' : list js_string),
    Basic.shuffleArray arr w
    = (Normal array,
       mkWorld (<[array := l']> (heap w)) (draws w) (cursor w + (length l - 1)) (log w))
    /\ heap w !! array = None
    /\ l' ≡ₚ l
    /\ length l' = length l.
Proof.
  intros Hl. destruct (shuffleArray_spec arr w) as (l' & Hrun & Hp).
  rewrite Hl in Hrun, Hp. cbn [default] in Hrun, Hp.
  exists (fresh (dom (heap w))), l'.
  split; [exact Hrun|]. split; [apply fresh_loc_unused|]. split; [exact Hp|].
  by apply Permutation_length.
Qed.

(** An instance: the five possible effects at location 1, every draw 0.5. *)
Lemma shuffleArray_permutes_witness :
  heap (world_of {[1%positive := Basic.possibleEffects]} half_draw) !! 1%positive
  = Some Basic.possibleEffects
  /\ exists (array : loc) (l' : list js_string),
       Basic.shuffleArray 1%positive
         (world_of {[1%positive := Basic.possibleEffects]} half_draw)
       = (Normal array,
          mkWorld
            (<[array := l']>
               (heap (world_of {[1%positive := Basic.possibleEffects]} half_draw)))
            (draws (world_of {[1%positive := Basic.possibleEffects]} half_draw))
            (cursor (world_of {[1%positive := Basic.possibleEffects]} half_draw)
             + (length Basic.possibleEffects - 1))
            (log (world_of {[1%positive := Basic.possibleEffects]} half_draw)))
       /\ heap (world_of {[1%positive := Basic.possibleEffects]} half_draw) !! array = None
       /\ l' ≡ₚ Basic.possibleEffects
       /\ length l' = length Basic.possibleEffects.
Proof.
  split; [reflexivity|].
  apply (shuffleArray_permutes 1%positive
           (world_of {[1%positive := Basic.possibleEffects]} half_draw)
           Basic.possibleEffects).
  reflexivity.
Defined.

(** X2.  The shuffle of [shuffleArray] can give every arrangement: for
    every array [arr] of at most [2 ^ 26] elements and every permutation of
    its elements there are values of [Math.random()] with which the array
    returned holds exactly that permutation.  The values are multiples of
    [2 ^ -26]: doubles of [[0,1)], whose product with [i + 1 <= 2 ^ 26] the
    machine computes exactly, so that [Math.floor(Math.random() * (i + 1))]
    is the index computed here. *)
Theorem shuffleArray_reaches_every_permutation
    (arr : loc) (w : World) (l target : list js_string) :
  heap w !! arr = Some l ->
  target ≡ₚ l ->
  (Z.of_nat (length l) <= 2 ^ 26)%Z ->
  exists (d : nat -> U01) (array : loc) (w' : World),
    (forall k, expo (d k) = 26)
    /\ Basic.shuffleArray arr (mkWorld (heap w) d (cursor w) (log w)) = (Normal array, w')
    /\ heap w' !! array = Some target.
Proof.
  intros Hl Hp Hbig.
  pose proof (Permutation_length Hp) as Hlen.
  set (array := fresh (dom (heap w))).
  destruct (shuffle_loop_reaches array (length l - 1) l target)
    as (rs & Hrs & Hwidth & Hrun);
    [lia | done | done | by rewrite !drop_ge by lia |].
  set (d := fun k => nth (k - cursor w) rs (mkU01 0 26 eq_refl)).
  exists d, array, (mkWorld (<[array := target]> (heap w)) d
                      (cursor w + (length l - 1)) (log w)).
  split.
  { intros k. unfold d.
    destruct (nth_in_or_default (k - cursor w) rs (mkU01 0 26 eq_refl)) as [Hin | ->];
      [|reflexivity].
    rewrite Forall_forall in Hwidth. apply Hwidth. by apply list_elem_of_In. }
  split; [|apply lookup_insert_eq].
  unfold Basic.shuffleArray.
  erewrite bind_Normal; [|reflexivity].
  erewrite bind_Normal;
    [|unfold Array_length; erewrite bind_Normal; [|reflexivity]; reflexivity].
  cbn [heap draws cursor log]. rewrite Hl. cbn [default].
  fold array. rewrite lookup_insert_eq. cbn [default].
  erewrite bind_Normal.
  2:{ apply Hrun; [apply lookup_insert_eq|].
      intros k r Hk. unfold d.
      replace (cursor w + k - cursor w) with k by lia.
      by apply nth_lookup_Some. }
  unfold mret, ST_ret. by rewrite insert_insert_eq.
Qed.

(** An instance: from [Nausea, Headache, Fatigue] to
    [Fatigue, Nausea, Headache]. *)
Lemma shuffleArray_reaches_every_permutation_witness :
  heap (world_of {[1%positive := [lit "Nausea"; lit "Headache"; lit "Fatigue"]]} zero_draw)
    !! 1%positive
  = Some [lit "Nausea"; lit "Headache"; lit "Fatigue"]
  /\ [lit "Fatigue"; lit "Nausea"; lit "Headache"]
     ≡ₚ [lit "Nausea"; lit "Headache"; lit "Fatigue"]
  /\ (Z.of_nat (length [lit "Nausea"; lit "Headache"; lit "Fatigue"]) <= 2 ^ 26)%Z
  /\ exists (d : nat -> U01) (array : loc) (w' : World),
       (forall k, expo (d k) = 26)
       /\ Basic.shuffleArray 1%positive
            (mkWorld
               (heap (world_of {[1%positive := [lit "Nausea"; lit "Headache"; lit "Fatigue"]]}
                        zero_draw))
               d
               (cursor (world_of {[1%positive := [lit "Nausea"; lit "Headache"; lit "Fatigue"]]}
                          zero_draw))
               (log (world_of {[1%positive := [lit "Nausea"; lit "Headache"; lit "Fatigue"]]}
                       zero_draw)))
          = (Normal array, w')
       /\ heap w' !! array = Some [lit "Fatigue"; lit "Nausea"; lit "Headache"].
Proof.
  assert (Hp : [lit "Fatigue"; lit "Nausea"; lit "Headache"]
               ≡ₚ [lit "Nausea"; lit "Headache"; lit "Fatigue"])
    by apply (Permutation_cons_append [lit "Nausea"; lit "Headache"] (lit "Fatigue")).
  assert (Hbig : (Z.of_nat (length [lit "Nausea"; lit "Headache"; lit "Fatigue"]) <= 2 ^ 26)%Z)
    by (simpl; lia).
  split; [reflexivity|]. split; [exact Hp|]. split; [exact Hbig|].
  apply (shuffleArray_reaches_every_permutation 1%positive
           (world_of {[1%positive := [lit "Nausea"; lit "Headache"; lit "Fatigue"]]} zero_draw)
           [lit "Nausea"; lit "Headache"; lit "Fatigue"]
           [lit "Fatigue"; lit "Nausea"; lit "Headache"]);
    [reflexivity | exact Hp | exact Hbig].
Defined.

(** ** Trimming and the guard of the create action *)

Lemma trim_start_clean (s : js_string) : starts_clean (trim_start s).
Proof.
  induction s as [|c s IH]; [done|]. simpl.
  destruct (is_white_space c) eqn:Hc; [done|]. exact Hc.
Qed.

Lemma trim_start_id (s : js_string) : starts_clean s -> trim_start s = s.
Proof. destruct s as [|c s]; [done|]. simpl. by intros ->. Qed.

Lemma trim_start_split (s : js_string) :
  exists pre, s = pre ++ trim_start s /\ Forall (fun c => is_white_space c = true) pre.
Proof.
  induction s as [|c s (pre & Hs & Hpre)]; [by exists []|]. simpl.
  destruct (is_white_space c) eqn:Hc.
  - exists (c :: pre). split; [simpl; congruence|by constructor].
  - by exists [].
Qed.

Lemma trim_start_nil_inv (s : js_string) :
  trim_start s = [] -> Forall (fun c => is_white_space c = true) s.
Proof.
  intros H. destruct (trim_start_split s) as (pre & Hs & Hpre).
  rewrite H, app_nil_r in Hs. by subst.
Qed.

(** [trim] gives the empty string on white space only, and on nothing
    else. *)
Lemma trim_nil_iff (s : js_string) :
  trim s = [] <-> Forall (fun c => is_white_space c = true) s.
Proof.
  split; [|apply trim_blank].
  unfold trim. intros H.
  apply (f_equal (@rev N)) in H. rewrite rev_involutive in H. simpl in H.
  apply trim_start_nil_inv in H.
  apply Forall_rev in H. rewrite rev_involutive in H.
  destruct (trim_start s) as [|c t] eqn:Ht.
  - by apply trim_start_nil_inv.
  - pose proof (trim_start_clean s) as Hclean. rewrite Ht in Hclean. simpl in Hclean.
    apply Forall_cons in H as [Hc _]. congruence.
Qed.

(** A trimmed string has no white space at either end. *)
Lemma trim_clean_ends (s : js_string) :
  starts_clean (trim s) /\ starts_clean (rev (trim s)).
Proof.
  unfold trim.
  set (t := trim_start s). set (u := trim_start (rev t)).
  split; [|rewrite rev_involutive; apply trim_start_clean].
  destruct (trim_start_split (rev t)) as (pre & Hrev & _). fold u in Hrev.
  apply (f_equal (@rev N)) in Hrev. rewrite rev_involutive, rev_app_distr in Hrev.
  pose proof (trim_start_clean s) as Hclean. fold t in Hclean.
  rewrite Hrev in Hclean. by destruct (rev u).
Qed.

(** Trimming twice is trimming once. *)
Lemma trim_idempotent (s : js_string) : trim (trim s) = trim s.
Proof.
  destruct (trim_clean_ends s) as [H1 H2].
  unfold trim at 1. rewrite (trim_start_id _ H1), (trim_start_id _ H2).
  apply rev_involutive.
Qed.

Lemma not_blank_trim (s : js_string) :
  Exists (fun c => is_white_space c = false) s -> trim s <> [].
Proof.
  intros Hex Htrim. apply trim_nil_iff in Htrim.
  apply Exists_exists in Hex as (c & Hc & Hws).
  rewrite Forall_forall in Htrim. specialize (Htrim c Hc). congruence.
Qed.

(** X3.  A create action of the basic variant on an input with at least
    one code unit that is not white space stores a Drug and enables the
    test button.  The Drug is made from the trimmed input: that string is
    not empty, has no white space at either end, is what the structure
    reverses and what the description quotes; the white space around the
    input enters nowhere.  The output panel is replaced by the three lines
    on the Drug, and one draw is taken. *)
Theorem basic_create_accepts (p : Basic.Page) (w : World) :
  Exists (fun c => is_white_space c = false) (Basic.moleculeInput_value p) ->
  exists (d : Basic.Drug) (input : js_string),
    input = trim (Basic.moleculeInput_value p)
    /\ input <> [] /\ starts_clean input /\ starts_clean (rev input)
    /\ Basic.structure d = rev input ++ lit "-mol"
    /\ Basic.description d
       = lit "Fictional compound inspired by " ++ [34%N] ++ input ++ [34%N]
         ++ lit ", for demo use only."
    /\ Basic.createBtn_click (p, w)
       = (Normal tt,
          (Basic.mkPage (Some d) (Basic.moleculeInput_value p)
             ([55358%N; 56810%N] ++ lit " Generated Drug:" ++ Basic.nl
              ++ lit "Name: " ++ Basic.name d ++ Basic.nl
              ++ lit "Structure: " ++ Basic.structure d ++ Basic.nl
              ++ lit "Description: " ++ Basic.description d)
             false,
           mkWorld (heap w) (draws w) (S (cursor w)) (log w))).
Proof.
  intros Hex. pose proof (not_blank_trim _ Hex) as Hne.
  destruct (basic_createBtn_click_creates p w Hne) as (d & Hd & Hrun).
  rewrite basic_simulateDrugCreation_eq in Hd.
  set (d0 := Basic.mkDrug
               (lit "FX-" ++ toUpperCase (substr (toString36 (draws w (cursor w))) 2 5))
               (rev (trim (Basic.moleculeInput_value p)) ++ Basic.suffix)
               (lit "Fictional compound inspired by " ++ [34%N]
                ++ trim (Basic.moleculeInput_value p) ++ [34%N]
                ++ lit ", for demo use only.")) in *.
  assert (Hdrug : d = d0) by congruence.
  rewrite Hdrug in Hrun. clear Hd Hdrug d.
  destruct (trim_clean_ends (Basic.moleculeInput_value p)) as [H1 H2].
  exists d0, (trim (Basic.moleculeInput_value p)). split; [reflexivity|].
  split; [exact Hne|]. split; [exact H1|]. split; [exact H2|].
  split; [reflexivity|]. split; [reflexivity|]. exact Hrun.
Qed.

(** An instance: the input [ aspirin ] with a space on either side. *)
Lemma basic_create_accepts_witness :
  let p := Basic.mkPage None (lit " aspirin ") [] true in
  let w := world_of ∅ half_draw in
  Exists (fun c => is_white_space c = false) (Basic.moleculeInput_value p)
  /\ exists (d : Basic.Drug) (input : js_string),
       input = trim (Basic.moleculeInput_value p)
       /\ input <> [] /\ starts_clean input /\ starts_clean (rev input)
       /\ Basic.structure d = rev input ++ lit "-mol"
       /\ Basic.description d
          = lit "Fictional compound inspired by " ++ [34%N] ++ input ++ [34%N]
            ++ lit ", for demo use only."
       /\ Basic.createBtn_click (p, w)
          = (Normal tt,
             (Basic.mkPage (Some d) (Basic.moleculeInput_value p)
                ([55358%N; 56810%N] ++ lit " Generated Drug:" ++ Basic.nl
                 ++ lit "Name: " ++ Basic.name d ++ Basic.nl
                 ++ lit "Structure: " ++ Basic.structure d ++ Basic.nl
                 ++ lit "Description: " ++ Basic.description d)
                false,
              mkWorld (heap w) (draws w) (S (cursor w)) (log w))).
Proof.
  intros p w.
  assert (Hex : Exists (fun c => is_white_space c = false) (Basic.moleculeInput_value p))
    by (apply Exists_cons_tl, Exists_cons_hd; reflexivity).
  split; [exact Hex|]. exact (basic_create_accepts p w Hex).
Defined.

(** X4.  The structure of a Drug of the basic variant gives the input
    back: without its last four code units and reversed, it is the input
    that [simulateDrugCreation] was given.  So two inputs with the same
    structure are the same input. *)
Theorem basic_structure_gives_input_back (input : js_string) (w : World) :
  exists d w',
    Basic.simulateDrugCreation input w = (Normal d, w')
    /\ rev (take (length (Basic.structure d) - 4) (Basic.structure d)) = input.
Proof.
  rewrite basic_simulateDrugCreation_eq. eexists _, _. split; [reflexivity|].
  cbn [Basic.structure]. rewrite length_app.
  replace (length (rev input) + length Basic.suffix - 4) with (length (rev input))
    by (change (length Basic.suffix) with 4; lia).
  rewrite take_app_length. apply rev_involutive.
Qed.

(** ** Testing in the basic variant, end to end *)

Lemma possibleEffects_NoDup : NoDup Basic.possibleEffects.
Proof. apply (bool_decide_unpack _). vm_compute. reflexivity. Qed.

Lemma two_of_permutation (l' : list js_string) :
  l' ≡ₚ Basic.possibleEffects ->
  exists e1 e2,
    take 2 l' = [e1; e2] /\ e1 <> e2
    /\ e1 ∈ Basic.possibleEffects /\ e2 ∈ Basic.possibleEffects.
Proof.
  intros Hp. pose proof (Permutation_length Hp) as Hlen.
  pose proof possibleEffects_NoDup as Hnd. rewrite <- Hp in Hnd.
  destruct l' as [|e1 [|e2 rest]]; [done..|].
  exists e1, e2. split; [done|].
  apply NoDup_cons in Hnd as [Hnotin _].
  split; [intros ->; apply Hnotin; by left|].
  split; rewrite <- Hp; [by left|right; by left].
Qed.

Lemma simulateDrugTesting_full (drug : Basic.Drug) (w : World) :
  exists (b : loc) (e1 e2 : js_string) (w' : World),
    Basic.simulateDrugTesting drug w
    = (Normal (Basic.mkTestResult
                 (toFixed (U01_val (draws w (cursor w)) * 100)%Q 1)
                 (toFixed (U01_val (draws w (S (cursor w))) * 100)%Q 1)
                 b), w')
    /\ heap w' !! b = Some [e1; e2]
    /\ e1 <> e2 /\ e1 ∈ Basic.possibleEffects /\ e2 ∈ Basic.possibleEffects
    /\ heap w !! b = None
    /\ (forall a, is_Some (heap w !! a) -> heap w' !! a = heap w !! a)
    /\ cursor w' = cursor w + 6
    /\ log w' = log w.
Proof.
  set (a := fresh (dom (heap w))).
  set (w3 := mkWorld (<[a := Basic.possibleEffects]> (heap w)) (draws w)
               (S (S (cursor w))) (log w)).
  destruct (shuffleAndTake_spec a 2 w3 Basic.possibleEffects)
    as (b & l' & w' & Hrun & Hb & Hp & Hbnew & Hframe & Hcur & Hlog);
    [apply lookup_insert_eq|].
  destruct (two_of_permutation l' Hp) as (e1 & e2 & Htake & Hne & Hin1 & Hin2).
  assert (Hab : a <> b).
  { intros <-. unfold w3 in Hbnew; cbn [heap] in Hbnew.
    by rewrite lookup_insert_eq in Hbnew. }
  exists b, e1, e2, w'. split; [|repeat split; try done].
  - unfold Basic.simulateDrugTesting.
    do 3 (erewrite bind_Normal; [|reflexivity]).
    erewrite bind_Normal; [|apply Hrun]. done.
  - by rewrite Hb, Htake.
  - unfold w3 in Hbnew; cbn [heap] in Hbnew. by rewrite lookup_insert_ne in Hbnew.
  - intros a' Ha'. rewrite Hframe.
    + unfold w3; cbn [heap]. apply lookup_insert_ne. intros <-.
      destruct Ha' as [x Hx]. unfold a in Hx. by rewrite fresh_loc_unused in Hx.
    + unfold w3; cbn [heap]. destruct (decide (a = a')) as [<-|Hne'].
      * rewrite lookup_insert_eq. eauto.
      * by rewrite lookup_insert_ne.
  - rewrite Hcur. unfold w3; cbn [cursor]. change (length Basic.possibleEffects) with 5. lia.
Qed.

(** X5.  [simulateDrugTesting] completes on every drug and in every world.
    Its side effects are a new array of exactly two different names, both
    from the list of five possible effects; the arrays that existed before
    are as they were; six draws are taken, two for the percentages and four
    for the shuffle. *)
Theorem simulateDrugTesting_two_distinct_effects (drug : Basic.Drug) (w : World) :
  exists (tr : Basic.TestResult) (e1 e2 : js_string) (w' : World),
    Basic.simulateDrugTesting drug w = (Normal tr, w')
    /\ heap w' !! Basic.sideEffects tr = Some [e1; e2]
    /\ e1 <> e2 /\ e1 ∈ Basic.possibleEffects /\ e2 ∈ Basic.possibleEffects
    /\ heap w !! Basic.sideEffects tr = None
    /\ (forall a, is_Some (heap w !! a) -> heap w' !! a = heap w !! a)
    /\ cursor w' = cursor w + 6
    /\ log w' = log w.
Proof.
  destruct (simulateDrugTesting_full drug w)
    as (b & e1 & e2 & w' & Hrun & Hrest).
  eexists _, e1, e2, w'. split; [exact Hrun|]. exact Hrest.
Qed.

Lemma basic_testBtn_click_with_drug (p : Basic.Page) (w : World) (d : Basic.Drug) :
  Basic.currentDrug p = Some d ->
  exists (e1 e2 : js_string) (w' : World),
    Basic.testBtn_click (p, w)
    = (Normal tt,
       (Basic.mkPage (Some d) (Basic.moleculeInput_value p)
          (Basic.resultOutput_textContent p
           ++ test_block (toFixed (U01_val (draws w (cursor w)) * 100)%Q 1)
                (toFixed (U01_val (draws w (S (cursor w))) * 100)%Q 1) e1 e2)
          (Basic.testBtn_disabled p),
        w'))
    /\ e1 <> e2 /\ e1 ∈ Basic.possibleEffects /\ e2 ∈ Basic.possibleEffects
    /\ cursor w' = cursor w + 6
    /\ log w' = log w.
Proof.
  intros Hd.
  destruct (simulateDrugTesting_full d w)
    as (b & e1 & e2 & w' & Hrun & Hb & Hne & Hin1 & Hin2 & _ & _ & Hcur & Hlog).
  exists e1, e2, w'. split; [|done].
  destruct p as [cd iv txt dis]. cbn [Basic.currentDrug] in Hd. subst cd.
  unfold Basic.testBtn_click.
  erewrite bind_Normal; [|reflexivity]. cbn [fst Basic.currentDrug].
  erewrite bind_Normal; [|reflexivity].
  erewrite bind_Normal; [|unfold lift; cbn [fst snd]; rewrite Hrun; reflexivity].
  erewrite bind_Normal.
  2:{ unfold lift, Array_join, contents, mbind, ST_bind. cbn [fst snd Basic.sideEffects].
      rewrite Hb. reflexivity. }
  unfold set_page, Basic.append_textContent, Basic.set_textContent, test_block.
  cbn [fst snd Basic.currentDrug Basic.moleculeInput_value Basic.resultOutput_textContent
         Basic.testBtn_disabled Basic.efficacy Basic.toxicity default join].
  rewrite <- !app_assoc. reflexivity.
Qed.

(** X6.  A test action of the basic variant on a page that holds a Drug
    completes; it keeps the Drug, the input and the state of the button,
    and appends one block to the output panel, after the text that was
    there: the efficacy and the toxicity, each a decimal with one decimal
    place in [[0,100]], and two different effects from the list of five,
    joined by a comma and a space.  It takes six draws.  When a draw is a
    multiple of [2 ^ -48] its product with 100 fits 53 bits, the machine
    computes it exactly, and the percentage printed is [toFixed(1)] of
    that product. *)
Theorem basic_test_appends (p : Basic.Page) (w : World) (d : Basic.Drug) :
  Basic.currentDrug p = Some d ->
  exists (eff tox e1 e2 : js_string) (w' : World),
    Basic.testBtn_click (p, w)
    = (Normal tt,
       (Basic.mkPage (Some d) (Basic.moleculeInput_value p)
          (Basic.resultOutput_textContent p ++ test_block eff tox e1 e2)
          (Basic.testBtn_disabled p),
        w'))
    /\ percent1 eff = true
    /\ percent1 tox = true
    /\ (expo (draws w (cursor w)) <= 48 ->
        eff = toFixed (U01_val (draws w (cursor w)) * 100)%Q 1)
    /\ (expo (draws w (S (cursor w))) <= 48 ->
        tox = toFixed (U01_val (draws w (S (cursor w))) * 100)%Q 1)
    /\ e1 <> e2 /\ e1 ∈ Basic.possibleEffects /\ e2 ∈ Basic.possibleEffects
    /\ cursor w' = cursor w + 6
    /\ log w' = log w.
Proof.
  intros Hd.
  destruct (basic_testBtn_click_with_drug p w d Hd) as (e1 & e2 & w' & Hrun & Hrest).
  exists (toFixed (U01_val (draws w (cursor w)) * 100)%Q 1),
         (toFixed (U01_val (draws w (S (cursor w))) * 100)%Q 1), e1, e2, w'.
  split; [exact Hrun|].
  split; [apply toFixed_percent; apply random_percent|].
  split; [apply toFixed_percent; apply random_percent|].
  split; [done|]. split; [done|]. exact Hrest.
Qed.

(** An instance: the Drug for [caffeine], every draw 0.5. *)
Lemma basic_test_appends_witness :
  let d := Basic.mkDrug (lit "FX-I") (lit "enieffac-mol") [] in
  let p := Basic.mkPage (Some d) (lit "caffeine") (lit "Generated") false in
  let w := world_of ∅ (mkU01 1 1 eq_refl) in
  Basic.currentDrug p = Some d
  /\ exists (eff tox e1 e2 : js_string) (w' : World),
       Basic.testBtn_click (p, w)
       = (Normal tt,
          (Basic.mkPage (Some d) (Basic.moleculeInput_value p)
             (Basic.resultOutput_textContent p ++ test_block eff tox e1 e2)
             (Basic.testBtn_disabled p),
           w'))
       /\ percent1 eff = true
       /\ percent1 tox = true
       /\ (expo (draws w (cursor w)) <= 48 ->
           eff = toFixed (U01_val (draws w (cursor w)) * 100)%Q 1)
       /\ (expo (draws w (S (cursor w))) <= 48 ->
           tox = toFixed (U01_val (draws w (S (cursor w))) * 100)%Q 1)
       /\ e1 <> e2 /\ e1 ∈ Basic.possibleEffects /\ e2 ∈ Basic.possibleEffects
       /\ cursor w' = cursor w + 6
       /\ log w' = log w.
Proof.
  intros d p w. split; [reflexivity|].
  apply (basic_test_appends p w d). reflexivity.
Defined.

(** ** Sessions of the basic variant *)

Lemma basic_step_cases (p : Basic.Page) (w : World) (a : basic_action) :
  (exists v w', basic_step (p, w) a
                = (Basic.mkPage (Basic.currentDrug p) v
                     (Basic.resultOutput_textContent p) (Basic.testBtn_disabled p), w'))
  \/ (exists txt w', basic_step (p, w) a
                     = (Basic.mkPage (Basic.currentDrug p) (Basic.moleculeInput_value p)
                          txt (Basic.testBtn_disabled p), w'))
  \/ (exists d txt w',
         basic_step (p, w) a = (Basic.mkPage (Some d) (Basic.moleculeInput_value p) txt false, w')
         /\ made_from_trimmed d).
Proof.
  destruct a as [v| |]; cbn [basic_step fst snd].
  - left. by eexists _, _.
  - destruct (trim (Basic.moleculeInput_value p)) as [|c t] eqn:Htrim.
    + right; left. apply trim_nil_iff in Htrim.
      rewrite (basic_createBtn_click_blank p w Htrim). by eexists _, _.
    + right; right.
      assert (Hne : trim (Basic.moleculeInput_value p) <> []) by (by rewrite Htrim).
      destruct (basic_createBtn_click_creates p w Hne) as (d & Hd & ->).
      eexists _, _, _. split; [reflexivity|].
      exists (trim (Basic.moleculeInput_value p)).
      split; [done|]. split; [apply trim_idempotent|].
      rewrite basic_simulateDrugCreation_eq in Hd. by injection Hd as <-.
  - right; left. destruct (Basic.currentDrug p) as [d|] eqn:Hd.
    + destruct (basic_testBtn_click_with_drug p w d Hd) as (e1 & e2 & w' & -> & _).
      by eexists _, _.
    + rewrite (basic_testBtn_click_no_drug p w Hd).
      destruct p as [cd iv txt dis]. cbn in Hd. subst cd. by eexists _, _.
Qed.

(** X7.  Every session of the basic variant keeps this: when there is a
    Drug, the test button is enabled, and the Drug was made from a
    non-empty input without white space at either end.  So
    [simulateDrugCreation] is never given an empty or untrimmed string,
    whatever the user types and clicks. *)
Theorem basic_session_invariant (p : Basic.Page) (w : World) (acts : list basic_action) :
  basic_page_ok p -> basic_page_ok (fst (basic_run (p, w) acts)).
Proof.
  revert p w. induction acts as [|a acts IH]; intros p w Hok; [done|].
  cbn [basic_run fold_left].
  destruct (basic_step_cases p w a)
    as [(v & w' & ->)|[(txt & w' & ->)|(d & txt & w' & -> & Hd)]];
    apply IH; unfold basic_page_ok in *; cbn [Basic.currentDrug Basic.testBtn_disabled];
    try done.
Qed.

(** An instance: typing [ aspirin ], then create, test, and create on a
    blank input. *)
Lemma basic_session_invariant_witness :
  let p := Basic.mkPage None [] [] true in
  let w := world_of ∅ half_draw in
  let acts := [BTypeInput (lit " aspirin "); BClickCreate; BClickTest;
               BTypeInput (lit "  "); BClickCreate] in
  basic_page_ok p /\ basic_page_ok (fst (basic_run (p, w) acts)).
Proof.
  intros p w acts.
  assert (Hok : basic_page_ok p) by exact I.
  split; [exact Hok|]. exact (basic_session_invariant p w acts Hok).
Defined.

(** X8.  In the basic variant a Drug, once stored, is never cleared: after
    any further actions there still is a Drug, and test actions and create
    actions on a blank input leave the very same Drug. *)
Theorem basic_drug_never_cleared (p : Basic.Page) (w : World) (d : Basic.Drug)
    (acts : list basic_action) :
  Basic.currentDrug p = Some d ->
  is_Some (Basic.currentDrug (fst (basic_run (p, w) acts)))
  /\ Basic.currentDrug (fst (basic_step (p, w) BClickTest)) = Some d
  /\ (Forall (fun c => is_white_space c = true) (Basic.moleculeInput_value p) ->
      Basic.currentDrug (fst (basic_step (p, w) BClickCreate)) = Some d).
Proof.
  intros Hd. split; [|split].
  - revert p w d Hd. induction acts as [|a acts IH]; intros p w d Hd; [by eexists|].
    cbn [basic_run fold_left].
    destruct (basic_step_cases p w a)
      as [(v & w' & ->)|[(txt & w' & ->)|(d' & txt & w' & -> & _)]].
    + by apply (IH _ _ d).
    + by apply (IH _ _ d).
    + by apply (IH _ _ d').
  - cbn [basic_step snd].
    destruct (basic_testBtn_click_with_drug p w d Hd) as (e1 & e2 & w' & -> & _). done.
  - intros Hblank. cbn [basic_step snd].
    by rewrite (basic_createBtn_click_blank p w Hblank).
Qed.

(** An instance: a stored Drug, then four more actions. *)
Lemma basic_drug_never_cleared_witness :
  let d := Basic.mkDrug (lit "FX-I") (lit "enieffac-mol") [] in
  let p := Basic.mkPage (Some d) (lit " ") [] false in
  let w := world_of ∅ half_draw in
  let acts := [BClickCreate; BClickTest; BTypeInput (lit "ibuprofen"); BClickCreate] in
  Basic.currentDrug p = Some d
  /\ is_Some (Basic.currentDrug (fst (basic_run (p, w) acts)))
  /\ Basic.currentDrug (fst (basic_step (p, w) BClickTest)) = Some d
  /\ (Forall (fun c => is_white_space c = true) (Basic.moleculeInput_value p) ->
      Basic.currentDrug (fst (basic_step (p, w) BClickCreate)) = Some d).
Proof.
  intros d p w acts. split; [reflexivity|].
  apply (basic_drug_never_cleared p w d acts). reflexivity.
Defined.

(** ** The input vector, further *)

(** X9.  [encodeMolecule] reads the first ten code units only: two strings
    with the same first ten units get the same vector.  For an input of ten
    units or more, neither the suffix of the structure nor the first units
    of the input reach the model. *)
Theorem encodeMolecule_reads_first_ten (s t : js_string) :
  take 10 s = take 10 t -> Enhanced.encodeMolecule s = Enhanced.encodeMolecule t.
Proof.
  intros Htake. apply list_eq. intros i.
  destruct (decide (i < 10)) as [Hi|Hi].
  - rewrite !encodeMolecule_lookup by done.
    rewrite <- (lookup_take_lt s 10 i Hi), <- (lookup_take_lt t 10 i Hi), Htake. done.
  - rewrite !lookup_ge_None_2; [done|rewrite encodeMolecule_length; lia..].
Qed.

(** An instance: the structure for [acetaminophen] and the reverse of its
    last ten units. *)
Lemma encodeMolecule_reads_first_ten_witness :
  take 10 (rev (lit "acetaminophen") ++ Enhanced.suffix) = take 10 (rev (lit "taminophen"))
  /\ Enhanced.encodeMolecule (rev (lit "acetaminophen") ++ Enhanced.suffix)
     = Enhanced.encodeMolecule (rev (lit "taminophen")).
Proof.
  split; [reflexivity|].
  apply (encodeMolecule_reads_first_ten
           (rev (lit "acetaminophen") ++ Enhanced.suffix) (rev (lit "taminophen"))).
  reflexivity.
Defined.

(** X10.  On strings of at most ten code units, none of them zero,
    [encodeMolecule] loses nothing: two such strings with equal vectors
    (entry by entry, as numbers) are the same string. *)
Theorem encodeMolecule_injective (s t : js_string) :
  length s <= 10 -> length t <= 10 ->
  Forall (fun c => c <> 0%N) s -> Forall (fun c => c <> 0%N) t ->
  Forall2 Qeq (Enhanced.encodeMolecule s) (Enhanced.encodeMolecule t) ->
  s = t.
Proof.
  intros Hs Ht Hs0 Ht0 Heq. apply list_eq. intros i.
  destruct (decide (i < 10)) as [Hi|Hi].
  - pose proof (encodeMolecule_lookup s i Hi) as Hsi.
    pose proof (encodeMolecule_lookup t i Hi) as Hti.
    destruct (Forall2_lookup_l _ _ _ _ _ Heq Hsi) as (y & Hy & Hxy).
    rewrite Hti in Hy. injection Hy as <-.
    rewrite Forall_lookup in Hs0. rewrite Forall_lookup in Ht0.
    destruct (s !! i) as [c|] eqn:Hc, (t !! i) as [c'|] eqn:Hc'; try done.
    + f_equal. unfold Qeq in Hxy; simpl in Hxy. lia.
    + specialize (Hs0 i c Hc). unfold Qeq in Hxy; simpl in Hxy. lia.
    + specialize (Ht0 i c' Hc'). unfold Qeq in Hxy; simpl in Hxy. lia.
  - rewrite !lookup_ge_None_2; [done|lia..].
Qed.

(** An instance: the structure [nirips-MOL] against itself. *)
Lemma encodeMolecule_injective_witness :
  length (lit "nirips-MOL") <= 10 /\ length (lit "nirips-MOL") <= 10
  /\ Forall (fun c => c <> 0%N) (lit "nirips-MOL")
  /\ Forall (fun c => c <> 0%N) (lit "nirips-MOL")
  /\ Forall2 Qeq (Enhanced.encodeMolecule (lit "nirips-MOL"))
       (Enhanced.encodeMolecule (lit "nirips-MOL"))
  /\ lit "nirips-MOL" = lit "nirips-MOL".
Proof.
  assert (Hlen : length (lit "nirips-MOL") <= 10) by (vm_compute; lia).
  assert (Hnz : Forall (fun c => c <> 0%N) (lit "nirips-MOL"))
    by (repeat constructor; discriminate).
  assert (Heq : Forall2 Qeq (Enhanced.encodeMolecule (lit "nirips-MOL"))
                  (Enhanced.encodeMolecule (lit "nirips-MOL")))
    by (apply Forall2_same_length_lookup; split; [done|];
        intros i x y Hx Hy; rewrite Hx in Hy; injection Hy as <-; reflexivity).
  split; [exact Hlen|]. split; [exact Hlen|]. split; [exact Hnz|]. split; [exact Hnz|].
  split; [exact Heq|].
  exact (encodeMolecule_injective _ _ Hlen Hlen Hnz Hnz Heq).
Defined.

(** X11.  The entries of the vector of [encodeMolecule] are all in [[0,1]]
    exactly when each of the first ten code units of the string is at most
    255. *)
Theorem encodeMolecule_unit_range (s : js_string) :
  Forall (fun x => (0 <= x)%Q /\ (x <= 1)%Q) (Enhanced.encodeMolecule s)
  <-> Forall (fun c => (c <= 255)%N) (take 10 s).
Proof.
  rewrite !Forall_lookup. split.
  - intros Hrange i c Hc. apply lookup_take_Some in Hc as [Hc Hi].
    pose proof (encodeMolecule_lookup s i Hi) as Hx. rewrite Hc in Hx.
    destruct (Hrange i _ Hx) as [_ Hle]. unfold Qle in Hle; simpl in Hle. lia.
  - intros Hlatin i x Hx.
    assert (Hi : i < 10).
    { apply lookup_lt_Some in Hx. by rewrite encodeMolecule_length in Hx. }
    rewrite encodeMolecule_lookup in Hx by done. injection Hx as <-.
    destruct (s !! i) as [c|] eqn:Hc.
    + assert (Hc' : take 10 s !! i = Some c) by (by apply lookup_take_Some).
      specialize (Hlatin i c Hc'). unfold Qle; simpl. lia.
    + unfold Qle; simpl. lia.
Qed.

(** ** Rendering in the enhanced variant *)

(** X12.  [renderRadarChart(effects)] completes on every array: it shows
    the radar canvas and makes a chart whose labels are the array it was
    given, the same one and no copy, with one score per label, each in
    [[0,100)], from one draw each; nothing else on the page and no array
    changes. *)
Theorem renderRadarChart_scores
    (Model : Type) (p : Enhanced.Page Model) (w : World) (effects : loc)
    (l : list js_string) :
  heap w !! effects = Some l ->
  exists scores : list Q,
    Enhanced.renderRadarChart effects (p, w)
    = (Normal tt,
       (Enhanced.set_radarChart (Some (effects, scores))
          (Enhanced.set_radarCanvas_hidden false p),
        mkWorld (heap w) (draws w) (cursor w + length l) (log w)))
    /\ length scores = length l
    /\ Forall (fun x => (0 <= x)%Q /\ (x < 100)%Q) scores.
Proof.
  intros Hl.
  exists (map (fun i => (U01_val (draws w (cursor w + i)) * 100)%Q) (seq 0 (length l))).
  split; [|split].
  - destruct p as [cd md iv vs pl sh td bh rh bc rc], w as [h dr c lg].
    cbn [heap] in Hl. run_handler. rewrite Hl. cbn.
    rewrite random_scores_spec. cbn. done.
  - by rewrite length_map, length_seq.
  - apply Forall_map, Forall_forall. intros i _. cbn.
    pose proof (U01_val_range (draws w (cursor w + i))). lra.
Qed.

(** An instance: three effects at location 1, every draw 0.5. *)
Lemma renderRadarChart_scores_witness :
  let p : Enhanced.Page nat := Enhanced.initial_page in
  let w := world_of {[1%positive := three_effects]} half_draw in
  heap w !! 1%positive = Some three_effects
  /\ exists scores : list Q,
       Enhanced.renderRadarChart 1%positive (p, w)
       = (Normal tt,
          (Enhanced.set_radarChart (Some (1%positive, scores))
             (Enhanced.set_radarCanvas_hidden false p),
           mkWorld (heap w) (draws w) (cursor w + length three_effects) (log w)))
       /\ length scores = length three_effects
       /\ Forall (fun x => (0 <= x)%Q /\ (x < 100)%Q) scores.
Proof.
  intros p w. split; [reflexivity|].
  apply (renderRadarChart_scores nat p w 1%positive three_effects). reflexivity.
Defined.

(** X13.  [displayProperties(drug)] replaces the list of properties: the
    list afterwards has the five lines on the Drug, in the order name,
    structure, molecular weight, logP, side effects (joined by a comma and
    a space), whatever it held before; displaying the same Drug again
    changes nothing; the world is as before. *)
Theorem displayProperties_replaces
    (Model : Type) (p : Enhanced.Page Model) (w : World) (drug : Enhanced.Drug)
    (l : list js_string) :
  heap w !! Enhanced.sideEffects drug = Some l ->
  let items :=
    [lit "Name: " ++ Enhanced.name drug;
     lit "Structure: " ++ Enhanced.structure drug;
     lit "Molecular Weight (g/mol): " ++ Enhanced.molWeight drug;
     lit "LogP (lipophilicity): " ++ Enhanced.logP drug;
     lit "Possible Side Effects: " ++ join (lit ", ") l] in
  Enhanced.displayProperties drug (p, w)
  = (Normal tt, (Enhanced.set_propertiesList items p, w))
  /\ (Enhanced.displayProperties drug ;; Enhanced.displayProperties drug) (p, w)
     = Enhanced.displayProperties drug (p, w).
Proof.
  intros Hl items.
  assert (Hrun : forall p0 : Enhanced.Page Model,
             Enhanced.displayProperties drug (p0, w)
             = (Normal tt, (Enhanced.set_propertiesList items p0, w))).
  { intros p0. destruct p0 as [cd md iv vs pl sh td bh rh bc rc].
    unfold Enhanced.displayProperties, Array_join.
    run_handler. rewrite Hl. cbn. done. }
  split; [apply Hrun|].
  erewrite bind_Normal; [|apply Hrun]. rewrite !Hrun. by destruct p.
Qed.

(** An instance: a Drug with three side effects at location 1. *)
Lemma displayProperties_replaces_witness :
  let p : Enhanced.Page nat :=
    Enhanced.set_propertiesList [lit "stale"] Enhanced.initial_page in
  let w := world_of {[1%positive := three_effects]} half_draw in
  heap w !! Enhanced.sideEffects caffeine_drug = Some three_effects
  /\ let items :=
       [lit "Name: " ++ Enhanced.name caffeine_drug;
        lit "Structure: " ++ Enhanced.structure caffeine_drug;
        lit "Molecular Weight (g/mol): " ++ Enhanced.molWeight caffeine_drug;
        lit "LogP (lipophilicity): " ++ Enhanced.logP caffeine_drug;
        lit "Possible Side Effects: " ++ join (lit ", ") three_effects] in
     Enhanced.displayProperties caffeine_drug (p, w)
     = (Normal tt, (Enhanced.set_propertiesList items p, w))
     /\ (Enhanced.displayProperties caffeine_drug ;; Enhanced.displayProperties caffeine_drug)
          (p, w)
        = Enhanced.displayProperties caffeine_drug (p, w).
Proof.
  intros p w. split; [reflexivity|].
  apply (displayProperties_replaces nat p w caffeine_drug three_effects). reflexivity.
Defined.

(** ** Sessions of the enhanced variant, further *)

Section EnhancedSessions.

Context {Model : Type}.
Variable tf_train : nat -> Model * nat.
Variable tf_predict : Model -> list Q -> Q * Q.

Local Abbreviation testBtn_click := (Enhanced.testBtn_click tf_train tf_predict).
Local Abbreviation step := (Enhanced.step tf_train tf_predict).
Local Abbreviation run := (Enhanced.run tf_train tf_predict).

(** What a test action leaves on the page, in each of its outcomes. *)
Lemma testBtn_click_outcomes (p : Enhanced.Page Model) (w : World) :
  exists r p' w',
    testBtn_click (p, w) = (r, (p', w'))
    /\ Enhanced.testBtn_disabled p' = true
    /\ Enhanced.currentDrug p' = Enhanced.currentDrug p
    /\ Enhanced.propertiesList p' = Enhanced.propertiesList p
    /\ (Enhanced.currentDrug p = None ->
        r = Throw TypeError
        /\ Enhanced.barChart p' = Enhanced.barChart p
        /\ Enhanced.radarChart p' = Enhanced.radarChart p
        /\ Enhanced.spinner_hidden p' = false).
Proof.
  assert (Hready : forall (p0 : Enhanced.Page Model) (w0 : World) (m : Model),
             Enhanced.model p0 = Some m ->
             exists r p' w',
               testBtn_click (p0, w0) = (r, (p', w'))
               /\ Enhanced.testBtn_disabled p' = true
               /\ Enhanced.currentDrug p' = Enhanced.currentDrug p0
               /\ Enhanced.propertiesList p' = Enhanced.propertiesList p0
               /\ (Enhanced.currentDrug p0 = None ->
                   r = Throw TypeError
                   /\ Enhanced.barChart p' = Enhanced.barChart p0
                   /\ Enhanced.radarChart p' = Enhanced.radarChart p0
                   /\ Enhanced.spinner_hidden p' = false)).
  { intros p0 w0 m Hm. destruct (Enhanced.currentDrug p0) as [d|] eqn:Hd.
    - rewrite (testBtn_click_ready tf_train tf_predict p0 w0 m d Hm Hd).
      eexists _, _, _. split; [reflexivity|].
      destruct p0; cbn in *. by subst.
    - rewrite (testBtn_click_no_drug tf_train tf_predict p0 w0 m Hm Hd).
      eexists _, _, _. split; [reflexivity|].
      destruct p0; cbn in *. by subst. }
  destruct (Enhanced.model p) as [m|] eqn:Hm.
  - by apply (Hready p w m).
  - rewrite (testBtn_click_unloaded tf_train tf_predict p w Hm).
    edestruct (Hready (Enhanced.set_model (Some (fst (tf_train (cursor w)))) p))
      as (r & p' & w' & Hrun & Hdis & Hcd & Hpl & Hnone); [by destruct p|].
    exists r, p', w'. split; [exact Hrun|].
    destruct p; cbn in *. done.
Qed.

Lemma step_keeps_disabled (s : Enhanced.Page Model * World) (a : Enhanced.action) :
  Enhanced.testBtn_disabled (fst s) = true ->
  Enhanced.testBtn_disabled (fst (step s a)) = true.
Proof.
  destruct s as [p w]. cbn [fst]. intros Hdis.
  destruct a as [v| | |]; cbn [Enhanced.step fst snd].
  - by destruct p.
  - destruct (enhanced_createBtn_click_page p w) as (r & h' & c' & lg' & -> & _). done.
  - by destruct p.
  - destruct (testBtn_click_outcomes p w) as (r & p' & w' & -> & Hd & _). done.
Qed.

End EnhancedSessions.

(** X14.  In the enhanced variant the test button is disabled by the first
    test action and no action enables it again: after a test action and
    any further actions, [testBtn.disabled] is true, whether the test
    action completed or threw. *)
Theorem test_button_stays_disabled
    (Model : Type) (tf_train : nat -> Model * nat)
    (tf_predict : Model -> list Q -> Q * Q)
    (s : Enhanced.Page Model * World) (acts : list Enhanced.action) :
  Enhanced.testBtn_disabled
    (fst (Enhanced.run tf_train tf_predict
            (Enhanced.step tf_train tf_predict s Enhanced.ClickTest) acts))
  = true.
Proof.
  assert (Hfirst : Enhanced.testBtn_disabled
                     (fst (Enhanced.step tf_train tf_predict s Enhanced.ClickTest)) = true).
  { destruct s as [p w]. cbn [Enhanced.step].
    destruct (testBtn_click_outcomes tf_train tf_predict p w)
      as (r & p' & w' & -> & Hd & _). done. }
  revert Hfirst. generalize (Enhanced.step tf_train tf_predict s Enhanced.ClickTest).
  induction acts as [|a acts IH]; intros s1 Hs1; [done|].
  cbn [Enhanced.run fold_left]. apply IH. by apply step_keeps_disabled.
Qed.

(** X15.  No session of the enhanced variant that starts on the freshly
    loaded page ever shows a result: after any actions there is no Drug,
    the list of properties is empty and neither chart exists; and a test
    action then throws a [TypeError].  The create action cannot store a
    Drug, since [pickRandom] throws before [currentDrug] is assigned. *)
Theorem enhanced_session_shows_nothing
    (Model : Type) (tf_train : nat -> Model * nat)
    (tf_predict : Model -> list Q -> Q * Q)
    (w : World) (acts : list Enhanced.action) :
  let s := Enhanced.run tf_train tf_predict (Enhanced.initial_page, w) acts in
  Enhanced.currentDrug (fst s) = None
  /\ Enhanced.propertiesList (fst s) = []
  /\ Enhanced.barChart (fst s) = None
  /\ Enhanced.radarChart (fst s) = None
  /\ fst (Enhanced.testBtn_click tf_train tf_predict s) = Throw TypeError.
Proof.
  intros s.
  assert (Hinv : Enhanced.currentDrug (fst s) = None
                 /\ Enhanced.propertiesList (fst s) = []
                 /\ Enhanced.barChart (fst s) = None
                 /\ Enhanced.radarChart (fst s) = None).
  { unfold s. clear s.
    assert (Hinit : Enhanced.currentDrug (fst (@Enhanced.initial_page Model, w)) = None
                    /\ Enhanced.propertiesList (fst (@Enhanced.initial_page Model, w)) = []
                    /\ Enhanced.barChart (fst (@Enhanced.initial_page Model, w)) = None
                    /\ Enhanced.radarChart (fst (@Enhanced.initial_page Model, w)) = None)
      by done.
    revert Hinit. generalize (@Enhanced.initial_page Model, w).
    induction acts as [|a acts IH]; intros [p w0] Hp; [done|].
    cbn [Enhanced.run fold_left]. apply IH. cbn [fst] in Hp.
    destruct Hp as (Hcd & Hpl & Hbc & Hrc).
    destruct a as [v| | |]; cbn [Enhanced.step fst snd].
    - by destruct p.
    - destruct (enhanced_createBtn_click_page p w0) as (r & h' & c' & lg' & -> & _).
      done.
    - by destruct p.
    - destruct (testBtn_click_outcomes tf_train tf_predict p w0)
        as (r & p' & w' & -> & _ & Hcd' & Hpl' & Hnone).
      destruct (Hnone Hcd) as (_ & Hbc' & Hrc' & _).
      cbn [fst snd]. repeat split; congruence. }
  destruct Hinv as (Hcd & Hpl & Hbc & Hrc). repeat split; try done.
  destruct s as [p w0]. cbn [fst] in Hcd.
  destruct (testBtn_click_outcomes tf_train tf_predict p w0)
    as (r & p' & w' & -> & _ & _ & _ & Hnone).
  by destruct (Hnone Hcd) as (-> & _).
Qed.

(** ** The wizard's steps *)

(** X16.  On a page with two steps or more, [showStep(index)] for an index
    of one of the steps leaves exactly that step without the [hidden]
    class, and sets a progress width between 0 and 100 percent: 0 for the
    first step and for no other, 100 for the last step and for no
    other. *)
Theorem showStep_in_range (n index : nat) :
  2 <= n -> index < n ->
  length (showStep_hidden n index) = n
  /\ (forall i, showStep_hidden n index !! i = Some false <-> i = index)
  /\ exists q : Q,
       showStep_progress n index = Some q
       /\ (0 <= q)%Q /\ (q <= 100)%Q
       /\ ((q == 0)%Q <-> index = 0)
       /\ ((q == 100)%Q <-> index = n - 1).
Proof.
  intros Hn Hindex. split; [|split].
  - unfold showStep_hidden. by rewrite length_map, length_seq.
  - intros i. unfold showStep_hidden.
    change (map ?f ?l) with (f <$> l). rewrite list_lookup_fmap.
    destruct (decide (i < n)) as [Hi|Hi].
    + rewrite lookup_seq_lt by done. cbn.
      destruct (Nat.eqb_spec i index); split; intros H; try done; congruence.
    + rewrite lookup_seq_ge by lia. cbn. split; [done|lia].
  - unfold showStep_progress.
    assert (Hd : exists pd : positive, (Z.of_nat n - 1)%Z = Z.pos pd).
    { exists (Z.to_pos (Z.of_nat n - 1)). rewrite Z2Pos.id; lia. }
    destruct Hd as [pd Hpd]. rewrite Hpd. cbn [Z.eqb].
    eexists. split; [reflexivity|].
    assert (Hq : (inject_Z (Z.of_nat index) / inject_Z (Z.pos pd) * 100
                  == (Z.of_nat index * 100) # pd)%Q).
    { rewrite <- Qmake_Qdiv. unfold Qeq, Qmult; simpl. lia. }
    rewrite !Hq. unfold Qle, Qeq; simpl.
    repeat split; try lia.
Qed.

(** An instance: the second of three steps. *)
Lemma showStep_in_range_witness :
  2 <= 3 /\ 1 < 3
  /\ length (showStep_hidden 3 1) = 3
  /\ (forall i, showStep_hidden 3 1 !! i = Some false <-> i = 1)
  /\ exists q : Q,
       showStep_progress 3 1 = Some q
       /\ (0 <= q)%Q /\ (q <= 100)%Q
       /\ ((q == 0)%Q <-> 1 = 0)
       /\ ((q == 100)%Q <-> 1 = 3 - 1).
Proof.
  assert (H2 : 2 <= 3) by lia. assert (H1 : 1 < 3) by lia.
  split; [exact H2|]. split; [exact H1|]. exact (showStep_in_range 3 1 H2 H1).
Defined.

(** ** A test action on a page with a Drug and a model *)

(** X17.  A test action of the enhanced variant on a page that holds a
    Drug and a model completes: it makes one prediction, on the vector of
    the structure of the Drug, and trains nothing; afterwards the spinner
    is hidden again, both canvases are shown, the button is disabled, the
    labels of the radar chart are the Drug's own array of side effects, and
    the Drug and the model are the ones that were there. *)
Theorem test_action_on_ready_page
    (Model : Type) (tf_train : nat -> Model * nat)
    (tf_predict : Model -> list Q -> Q * Q)
    (p : Enhanced.Page Model) (w : World) (m : Model) (d : Enhanced.Drug) :
  Enhanced.model p = Some m -> Enhanced.currentDrug p = Some d ->
  exists (p' : Enhanced.Page Model) (w' : World) (scores : list Q),
    Enhanced.testBtn_click tf_train tf_predict (p, w) = (Normal tt, (p', w'))
    /\ log w' = log w ++ [EvPredict (Enhanced.encodeMolecule (Enhanced.structure d))]
    /\ heap w' = heap w
    /\ Enhanced.currentDrug p' = Some d /\ Enhanced.model p' = Some m
    /\ Enhanced.spinner_hidden p' = true /\ Enhanced.testBtn_disabled p' = true
    /\ Enhanced.barCanvas_hidden p' = false /\ Enhanced.radarCanvas_hidden p' = false
    /\ Enhanced.radarChart p' = Some (Enhanced.sideEffects d, scores)
    /\ Enhanced.visibleStep p' = Enhanced.visibleStep p
    /\ Enhanced.propertiesList p' = Enhanced.propertiesList p.
Proof.
  intros Hm Hd.
  rewrite (testBtn_click_ready tf_train tf_predict p w m d Hm Hd).
  eexists _, _, _. split; [reflexivity|].
  destruct p; cbn in *. subst. repeat split.
Qed.

(** An instance: the Drug for [caffeine] and the example library. *)
Lemma test_action_on_ready_page_witness :
  let p : Enhanced.Page nat :=
    Enhanced.set_model (Some 7) (Enhanced.set_currentDrug (Some caffeine_drug)
                                   Enhanced.initial_page) in
  let w := world_of {[1%positive := three_effects]} half_draw in
  Enhanced.model p = Some 7 /\ Enhanced.currentDrug p = Some caffeine_drug
  /\ exists (p' : Enhanced.Page nat) (w' : World) (scores : list Q),
       Enhanced.testBtn_click toy_train toy_predict (p, w) = (Normal tt, (p', w'))
       /\ log w'
          = log w ++ [EvPredict (Enhanced.encodeMolecule (Enhanced.structure caffeine_drug))]
       /\ heap w' = heap w
       /\ Enhanced.currentDrug p' = Some caffeine_drug /\ Enhanced.model p' = Some 7
       /\ Enhanced.spinner_hidden p' = true /\ Enhanced.testBtn_disabled p' = true
       /\ Enhanced.barCanvas_hidden p' = false /\ Enhanced.radarCanvas_hidden p' = false
       /\ Enhanced.radarChart p' = Some (Enhanced.sideEffects caffeine_drug, scores)
       /\ Enhanced.visibleStep p' = Enhanced.visibleStep p
       /\ Enhanced.propertiesList p' = Enhanced.propertiesList p.
Proof.
  intros p w.
  assert (Hm : Enhanced.model p = Some 7) by reflexivity.
  assert (Hd : Enhanced.currentDrug p = Some caffeine_drug) by reflexivity.
  split; [exact Hm|]. split; [exact Hd|].
  exact (test_action_on_ready_page nat toy_train toy_predict p w 7 caffeine_drug Hm Hd).
Defined.
